(** * FinanceDashboard: the view-state logic of the finance dashboard

    A shallow embedding of [FinanceDashboard.tsx] (the variant wired to
    [api/transactionsApi.ts]) and of the properties of its derived
    transaction view, its category list, its load and delete handlers and
    its access gate.

    ECMAScript values are modelled as follows.
    - A string is the list of its UTF-16 code units.
    - An array is a cell of a store and a variable holds a reference to it:
      [Array.prototype.filter] and [slice] allocate, [Array.prototype.sort]
      sorts the cell in place and returns the same reference.
    - The number [new Date(s).getTime()] is [Some t] (an integral number of
      milliseconds) or [None] for [NaN].
    - A promise is settled by the environment: the outcome of each request is
      an argument of the handler that awaits it. *)

From Stdlib Require Import List ZArith NArith Bool Lia String Ascii.
From Stdlib Require Import Permutation Sorted PrimFloat.
Import ListNotations.

Set Implicit Arguments.
Set Default Proof Using "Type".
Local Open Scope Z_scope.

(* ================================================================== *)
(** ** Strings *)

(** A string value: its UTF-16 code units. *)
Definition jsstring := list N.

(** [ToBoolean] on a string: only the empty string is falsy. *)
Definition truthy (s : jsstring) : bool :=
  match s with
  | [] => false
  | _ :: _ => true
  end.

Fixpoint jsstring_eqb (a b : jsstring) : bool :=
  match a, b with
  | [], [] => true
  | x :: a', y :: b' => N.eqb x y && jsstring_eqb a' b'
  | _, _ => false
  end.

(** [startsWith]: is [p] a prefix of [s]? *)
Fixpoint startsWith (p s : jsstring) : bool :=
  match p, s with
  | [], _ => true
  | _ :: _, [] => false
  | x :: p', y :: s' => N.eqb x y && startsWith p' s'
  end.

(** [String.prototype.includes]: does [p] occur in [s] at some index? *)
Fixpoint includes (s p : jsstring) : bool :=
  startsWith p s ||
  match s with
  | [] => false
  | _ :: s' => includes s' p
  end.

(** The comparison [x < y] of two strings: lexicographic on code units, a
    proper prefix first. *)
Fixpoint jsstring_ltb (a b : jsstring) : bool :=
  match a, b with
  | _, [] => false
  | [], _ :: _ => true
  | x :: a', y :: b' => N.ltb x y || (N.eqb x y && jsstring_ltb a' b')
  end.

(** Source text of this file is UTF-8; [js] reads a literal into the code
    units of the same text (sequences of one to three bytes, which covers
    the Basic Multilingual Plane). *)
Fixpoint utf16_of_utf8 (fuel : nat) (bs : list N) : jsstring :=
  match fuel with
  | O => []
  | S fuel' =>
      match bs with
      | [] => []
      | b0 :: r0 =>
          if N.ltb b0 128 then b0 :: utf16_of_utf8 fuel' r0
          else if N.ltb b0 224 then
            match r0 with
            | b1 :: r1 =>
                (N.land b0 31 * 64 + N.land b1 63)%N :: utf16_of_utf8 fuel' r1
            | [] => [b0]
            end
          else
            match r0 with
            | b1 :: b2 :: r2 =>
                (N.land b0 15 * 4096 + N.land b1 63 * 64 + N.land b2 63)%N
                  :: utf16_of_utf8 fuel' r2
            | _ => b0 :: r0
            end
      end
  end.

Definition js (s : string) : jsstring :=
  let bs := List.map N_of_ascii (list_ascii_of_string s) in
  utf16_of_utf8 (List.length bs) bs.

(* ================================================================== *)
(** ** Two functions for closed examples

    [String.prototype.toLowerCase] and the date parser behind [new Date(s)]
    belong to the engine.  The two functions here agree with every engine on
    the strings that the examples use. *)

(** Lower case of Basic Latin and Latin-1 letters; other code units are
    kept. *)
Definition lowerUnit (c : N) : N :=
  if (N.leb 65 c && N.leb c 90)%bool then (c + 32)%N
  else if (N.leb 192 c && N.leb c 222 && negb (N.eqb c 215))%bool then (c + 32)%N
  else c.

Definition latin1ToLowerCase (s : jsstring) : jsstring := List.map lowerUnit s.

Definition digit (c : N) : option Z :=
  if (N.leb 48 c && N.leb c 57)%bool then Some (Z.of_N c - 48) else None.

Fixpoint digits (acc : Z) (s : jsstring) : option Z :=
  match s with
  | [] => Some acc
  | c :: s' =>
      match digit c with
      | Some d => digits (10 * acc + d) s'
      | None => None
      end
  end.

(** Days from 1970-01-01 to the civil date [y]-[m]-[d] (proleptic
    Gregorian calendar). *)
Definition daysFromCivil (y m d : Z) : Z :=
  let y' := if m <=? 2 then y - 1 else y in
  let era := y' / 400 in
  let yoe := y' - era * 400 in
  let mp := (m + 9) mod 12 in
  let doy := (153 * mp + 2) / 5 + d - 1 in
  let doe := yoe * 365 + yoe / 4 - yoe / 100 + doy in
  era * 146097 + doe - 719468.

Definition daysInMonth (y m : Z) : Z :=
  if m =? 2 then
    if ((y mod 4 =? 0) && (negb (y mod 100 =? 0) || (y mod 400 =? 0)))%bool
    then 29 else 28
  else if ((m =? 4) || (m =? 6) || (m =? 9) || (m =? 11))%bool then 30
  else 31.

(** The time value of a string in the format [YYYY-MM-DDTHH:mm:ss.sssZ]
    that [Date.prototype.toISOString] writes; [None] (an invalid date, whose
    [getTime()] is [NaN]) for any other string. *)
Definition isoGetTime (s : jsstring) : option Z :=
  match s with
  | [y1; y2; y3; y4; 45; m1; m2; 45; d1; d2; 84;
     h1; h2; 58; n1; n2; 58; s1; s2; 46; f1; f2; f3; 90]%N =>
      match digits 0 [y1; y2; y3; y4], digits 0 [m1; m2], digits 0 [d1; d2],
            digits 0 [h1; h2], digits 0 [n1; n2], digits 0 [s1; s2],
            digits 0 [f1; f2; f3] with
      | Some y, Some m, Some d, Some h, Some n, Some sec, Some ms =>
          if ((1 <=? m) && (m <=? 12) && (1 <=? d) && (d <=? daysInMonth y m)
              && (h <=? 23) && (n <=? 59) && (sec <=? 59))%bool
          then Some ((((daysFromCivil y m d * 24 + h) * 60 + n) * 60 + sec)
                     * 1000 + ms)
          else None
      | _, _, _, _, _, _, _ => None
      end
  | _ => None
  end.

(* ================================================================== *)
(** ** Data model *)

Inductive TransactionType := income | expense.

Definition TransactionType_eqb (a b : TransactionType) : bool :=
  match a, b with
  | income, income => true
  | expense, expense => true
  | _, _ => false
  end.

Record Transaction := {
  _id : jsstring;
  type : TransactionType;
  amount : float;
  description : jsstring;
  category : jsstring;
  createdAt : jsstring;
  userId : jsstring
}.

Record Summary := {
  totalIncome : float;
  totalExpenses : float;
  balance : float;
  categorySummary : list (jsstring * float);
  transactionCount : float
}.

Inductive ViewMode := view_dashboard | view_expenses | view_income | view_transactions.

(** A reference to an array of transactions. *)
Definition ref := nat.

(** The [useState] cells of the component.  [transactions] holds the
    reference that [setTransactions] was last given. *)
Record State := {
  transactions : ref;
  summary : option Summary;
  loading : bool;
  currentView : ViewMode;
  searchTerm : jsstring;
  selectedCategory : jsstring;
  showBalance : bool;
  sidebarOpen : bool
}.

(** What the component does to its environment. *)
Inductive Effect :=
| window_confirm (message : jsstring)
| window_alert (message : jsstring)
| console_error (message : jsstring)
| axios_get (url : jsstring)
| axios_delete (url : jsstring).

(** A settled promise. *)
Inductive Settled (A : Type) :=
| fulfilled (value : A)
| rejected (reason : jsstring).
Arguments rejected {A} reason.

(** The body of the response to [GET /transactions/:userId]. *)
Record ResponseData := {
  data_transactions : list Transaction;
  data_summary : Summary
}.

(** The parameters of a query string, as [URLSearchParams] holds them: in
    the order of the string, a name possibly several times. *)
Definition URLSearchParams := list (jsstring * jsstring).

(** [URLSearchParams.prototype.get]: the value of the first parameter of
    that name, [None] ([null]) if there is none. *)
Definition URLSearchParams_get (params : URLSearchParams) (name : jsstring)
    : option jsstring :=
  match find (fun p => jsstring_eqb (fst p) name) params with
  | Some p => Some (snd p)
  | None => None
  end.

(* ================================================================== *)
(** ** The store of arrays and the monad of the component *)

Definition Store := list (list Transaction).

Record World := {
  state : State;
  store : Store;
  effects : list Effect
}.

Definition Run (A : Type) : Type := World -> A * World.

Definition ret {A} (a : A) : Run A := fun w => (a, w).

Definition bind {A B} (m : Run A) (k : A -> Run B) : Run B :=
  fun w => let (a, w') := m w in k a w'.

Declare Scope run_scope.
Delimit Scope run_scope with run.
Notation "x <- m ;; k" := (bind m (fun x => k))
  (at level 61, m at next level, right associativity) : run_scope.
Notation "m ;;; k" := (bind m (fun _ => k))
  (at level 61, right associativity) : run_scope.
Local Open Scope run_scope.

Definition getState : Run State := fun w => (state w, w).

Definition setState (f : State -> State) : Run unit :=
  fun w => (tt, {| state := f (state w); store := store w; effects := effects w |}).

Definition emit (e : Effect) : Run unit :=
  fun w => (tt, {| state := state w; store := store w; effects := effects w ++ [e] |}).

(** The contents of the array behind [r]. *)
Definition deref (st : Store) (r : ref) : list Transaction := nth r st [].

Fixpoint assign (st : Store) (r : ref) (l : list Transaction) : Store :=
  match st, r with
  | [], _ => []
  | _ :: st', O => l :: st'
  | a :: st', S r' => a :: assign st' r' l
  end.

Definition Array_read (r : ref) : Run (list Transaction) :=
  fun w => (deref (store w) r, w).

(** A new array: a fresh cell at the end of the store. *)
Definition Array_new (l : list Transaction) : Run ref :=
  fun w => (List.length (store w),
            {| state := state w; store := store w ++ [l]; effects := effects w |}).

Definition Array_write (r : ref) (l : list Transaction) : Run unit :=
  fun w => (tt, {| state := state w; store := assign (store w) r l;
                   effects := effects w |}).

(** [Array.prototype.filter]: a new array. *)
Definition Array_filter (p : Transaction -> bool) (r : ref) : Run ref :=
  l <- Array_read r ;; Array_new (filter p l).

(** [Array.prototype.slice(0, end)]: a new array; [end] is [undefined]
    ([None]) for the whole array. *)
Definition Array_slice0 (finish : option nat) (r : ref) : Run ref :=
  l <- Array_read r ;;
  Array_new (match finish with Some n => firstn n l | None => l end).

(* ================================================================== *)
(** ** [Array.prototype.sort]

    The standard fixes the result of [sort] when the comparison function is
    a consistent comparator for the elements: they are sorted, and the sort
    is stable.  When it is not, as when a comparison is [NaN], the result is
    some rearrangement that the engine chooses. *)

Section Sort.
Variable A : Type.
(** The comparison function; [None] is the result [NaN]. *)
Variable comparefn : A -> A -> option Z.

(** The abstract operation SortCompare: a [NaN] result counts as [+0]. *)
Definition SortCompare (x y : A) : Z :=
  match comparefn x y with
  | Some v => v
  | None => 0
  end.

(** The requirements of the standard on a consistent comparator, at three
    elements: the comparison is a number and not [NaN], [a] equals itself,
    equality is symmetric, and equality, less and greater are transitive. *)
Definition consistentAt (a b c : A) : bool :=
  match comparefn a b with Some _ => true | None => false end &&
  (SortCompare a a =? 0) &&
  implb (SortCompare a b =? 0) (SortCompare b a =? 0) &&
  implb ((SortCompare a b =? 0) && (SortCompare b c =? 0)) (SortCompare a c =? 0) &&
  implb ((SortCompare a b <? 0) && (SortCompare b c <? 0)) (SortCompare a c <? 0) &&
  implb ((0 <? SortCompare a b) && (0 <? SortCompare b c)) (0 <? SortCompare a c).

(** Is the comparison function a consistent comparator for the elements of
    [l]? *)
Definition consistent (l : list A) : bool :=
  forallb (fun a => forallb (fun b => forallb (consistentAt a b) l) l) l.

(** The stable sort by insertion: [x], which stood before all of [l], moves
    behind [y] only if [comparefn x y > 0].  For a consistent comparator
    this is the order that the standard fixes. *)
Fixpoint insert (x : A) (l : list A) : list A :=
  match l with
  | [] => [x]
  | y :: l' => if SortCompare x y <=? 0 then x :: y :: l' else y :: insert x l'
  end.

Fixpoint stableSort (l : list A) : list A :=
  match l with
  | [] => []
  | x :: l' => insert x (stableSort l')
  end.

(** [x] may stand before [y]: the comparison does not ask for [y] first. *)
Definition mayPrecede (x y : A) : Prop := SortCompare x y <= 0.

(** *** The sort of V8 on an array of fewer than 64 elements

    The array is one run: the longest prefix that is not descending, or
    that is strictly descending and then reversed, which binary insertion
    extends by the elements that follow. *)

(** How many of [l] continue the run that ends in [previous]. *)
Fixpoint runRest (descending : bool) (previous : A) (l : list A) : nat :=
  match l with
  | [] => O
  | current :: l' =>
      let order := SortCompare current previous in
      if descending then
        if 0 <=? order then O else S (runRest descending current l')
      else
        if order <? 0 then O else S (runRest descending current l')
  end.

(** CountAndMakeRun: the length of the first run and whether it is
    descending. *)
Definition countRun (l : list A) : nat * bool :=
  match l with
  | [] => (O, false)
  | [_] => (1%nat, false)
  | low :: high :: l' =>
      let descending := SortCompare high low <? 0 in
      (S (S (runRest descending high l')), descending)
  end.

(** The search of BinaryInsertionSort for the place of [pivot] in the
    indices from [left] up to [right] of [work]. *)
Fixpoint binarySearch (fuel : nat) (pivot : A) (work : list A)
    (left right : nat) : nat :=
  match fuel with
  | O => left
  | S fuel' =>
      if Nat.ltb left right then
        let mid := (left + Nat.div2 (right - left))%nat in
        let order :=
          match nth_error work mid with
          | Some element => SortCompare pivot element
          | None => 0
          end in
        if order <? 0 then binarySearch fuel' pivot work left mid
        else binarySearch fuel' pivot work (S mid) right
      else left
  end.

Definition insertAt (index : nat) (x : A) (l : list A) : list A :=
  firstn index l ++ x :: skipn index l.

Definition binaryInsertion (work : list A) (pivot : A) : list A :=
  insertAt (binarySearch (List.length work) pivot work O (List.length work))
    pivot work.

Definition v8sort (l : list A) : list A :=
  let (runLength, descending) := countRun l in
  let run := firstn runLength l in
  fold_left binaryInsertion (skipn runLength l)
    (if descending then rev run else run).
End Sort.

(* ================================================================== *)
(** ** The host

    [String.prototype.toLowerCase], the date parser behind [new Date(s)]
    and [Array.prototype.sort] belong to the engine, and the base URL of the
    API to the configuration of the build: the dashboard takes them as a
    parameter.  Of the sort it uses what the standard promises: the result
    is a rearrangement of the array, and for a consistent comparator it is
    the stable sorted order. *)

Class Host := {
  (** [String.prototype.toLowerCase]. *)
  toLowerCase : jsstring -> jsstring;
  (** [new Date(s).getTime()]; [None] is [NaN]. *)
  Date_getTime : jsstring -> option Z;
  (** The base URL of the API. *)
  API_URL : jsstring;
  (** [Array.prototype.sort] on the elements of an array. *)
  sort : forall A : Type, (A -> A -> option Z) -> list A -> list A;
  sort_permutes :
    forall (A : Type) (comparefn : A -> A -> option Z) (l : list A),
      Permutation (sort comparefn l) l;
  sort_consistent :
    forall (A : Type) (comparefn : A -> A -> option Z) (l : list A),
      consistent comparefn l = true ->
      sort comparefn l = stableSort comparefn l
}.

(** The host of an engine that sorts by [fallback] what it compares
    inconsistently; its other functions are the two for the examples. *)
Definition engineOf
    (fallback : forall A : Type, (A -> A -> option Z) -> list A -> list A)
    (fallback_permutes :
       forall (A : Type) (comparefn : A -> A -> option Z) (l : list A),
         Permutation (fallback A comparefn l) l) : Host.
Proof.
  refine {| toLowerCase := latin1ToLowerCase;
            Date_getTime := isoGetTime;
            API_URL := js "http://localhost:3001/api";
            sort := fun A comparefn l =>
                      if consistent comparefn l then stableSort comparefn l
                      else fallback A comparefn l |}.
  - intros A f l. destruct (consistent f l); [|apply fallback_permutes].
    assert (Hinsert : forall x l0, Permutation (insert f x l0) (x :: l0)).
    { intros x l0. induction l0 as [|y l0 IH]; simpl.
      - apply Permutation_refl.
      - destruct (SortCompare f x y <=? 0).
        + apply Permutation_refl.
        + eapply perm_trans; [apply perm_skip, IH | apply perm_swap]. }
    induction l as [|x l IH]; simpl.
    + constructor.
    + eapply perm_trans; [apply Hinsert | now apply perm_skip].
  - intros A f l H. now rewrite H.
Defined.

(** The host of the examples: it sorts as V8 sorts an array of fewer than
    64 elements. *)
Definition demoHost : Host.
Proof.
  apply (engineOf v8sort).
  intros A f l. unfold v8sort. destruct (countRun f l) as [n descending].
  assert (Hfold : forall rest work,
            Permutation (fold_left (binaryInsertion f) rest work) (work ++ rest)).
  { induction rest as [|x rest IH]; intros work; simpl.
    - now rewrite app_nil_r.
    - eapply perm_trans; [apply IH|].
      change (work ++ x :: rest) with (work ++ [x] ++ rest).
      rewrite app_assoc. apply Permutation_app_tail.
      unfold binaryInsertion, insertAt.
      set (k := binarySearch f _ _ _ _ _).
      eapply perm_trans; [apply Permutation_sym, Permutation_middle|].
      rewrite firstn_skipn. apply Permutation_cons_append. }
  eapply perm_trans; [apply Hfold|].
  eapply perm_trans;
    [apply Permutation_app_tail with (l' := firstn n l)
    |rewrite firstn_skipn; apply Permutation_refl].
  destruct descending; [apply Permutation_sym, Permutation_rev | apply Permutation_refl].
Defined.

(** The host of an engine that reverses what it compares inconsistently. *)
Definition reversingHost : Host.
Proof.
  apply (engineOf (fun A _ l => rev l)).
  intros A f l. apply Permutation_sym, Permutation_rev.
Defined.

(** [sort] called on an array of transactions: in place, and the value of
    the call is the array itself. *)
Definition Array_sort {host : Host}
    (comparefn : Transaction -> Transaction -> option Z) (r : ref) : Run ref :=
  l <- Array_read r ;;
  Array_write r (sort comparefn l) ;;;
  ret r.

(** Subtraction of two time values; [NaN] if either is. *)
Definition Number_sub (a b : option Z) : option Z :=
  match a, b with
  | Some x, Some y => Some (x - y)
  | _, _ => None
  end.

(** The comparison of [sort()] without a comparison function, on strings. *)
Definition defaultCompare (x y : jsstring) : option Z :=
  if jsstring_ltb x y then Some (-1)
  else if jsstring_ltb y x then Some 1
  else Some 0.

(** [new Set(l)] spread back into an array: the elements of [l] in the
    order of their first occurrence. *)
Fixpoint Set_add (x : jsstring) (s : list jsstring) : list jsstring :=
  match s with
  | [] => [x]
  | y :: s' => if jsstring_eqb y x then s else y :: Set_add x s'
  end.

Definition Set_from (l : list jsstring) : list jsstring :=
  fold_left (fun s x => Set_add x s) l [].

(* ================================================================== *)
(** ** The component *)

Section FinanceDashboard.
Context {host : Host}.

(** *** api/transactionsApi.ts *)

(** Each function sends its request; the value its promise settles to is
    handed to the caller's continuation by the environment. *)
Definition fetchTransactions (userId : jsstring) : Run unit :=
  emit (axios_get (API_URL ++ js "/transactions/" ++ userId)).

Definition deleteTransaction (userId transactionId : jsstring) : Run unit :=
  emit (axios_delete
          (API_URL ++ js "/transactions/" ++ userId ++ js "/" ++ transactionId)).

(** *** components/FinanceDashboard.tsx *)

(** [params.get('userId') || 'default_user']: the right operand for
    [null] and for the empty string. *)
Definition getUserIdFromUrl (params : URLSearchParams) : jsstring :=
  match URLSearchParams_get params (js "userId") with
  | Some v => if truthy v then v else js "default_user"
  | None => js "default_user"
  end.

Definition setTransactions (r : ref) : Run unit :=
  setState (fun s =>
    {| transactions := r; summary := summary s; loading := loading s;
       currentView := currentView s; searchTerm := searchTerm s;
       selectedCategory := selectedCategory s; showBalance := showBalance s;
       sidebarOpen := sidebarOpen s |}).

Definition setSummary (v : option Summary) : Run unit :=
  setState (fun s =>
    {| transactions := transactions s; summary := v; loading := loading s;
       currentView := currentView s; searchTerm := searchTerm s;
       selectedCategory := selectedCategory s; showBalance := showBalance s;
       sidebarOpen := sidebarOpen s |}).

Definition setLoading (v : bool) : Run unit :=
  setState (fun s =>
    {| transactions := transactions s; summary := summary s; loading := v;
       currentView := currentView s; searchTerm := searchTerm s;
       selectedCategory := selectedCategory s; showBalance := showBalance s;
       sidebarOpen := sidebarOpen s |}).

Definition setCurrentView (v : ViewMode) : Run unit :=
  setState (fun s =>
    {| transactions := transactions s; summary := summary s; loading := loading s;
       currentView := v; searchTerm := searchTerm s;
       selectedCategory := selectedCategory s; showBalance := showBalance s;
       sidebarOpen := sidebarOpen s |}).

Definition setSearchTerm (v : jsstring) : Run unit :=
  setState (fun s =>
    {| transactions := transactions s; summary := summary s; loading := loading s;
       currentView := currentView s; searchTerm := v;
       selectedCategory := selectedCategory s; showBalance := showBalance s;
       sidebarOpen := sidebarOpen s |}).

Definition setSelectedCategory (v : jsstring) : Run unit :=
  setState (fun s =>
    {| transactions := transactions s; summary := summary s; loading := loading s;
       currentView := currentView s; searchTerm := searchTerm s;
       selectedCategory := v; showBalance := showBalance s;
       sidebarOpen := sidebarOpen s |}).

Definition setSidebarOpen (v : bool) : Run unit :=
  setState (fun s =>
    {| transactions := transactions s; summary := summary s; loading := loading s;
       currentView := currentView s; searchTerm := searchTerm s;
       selectedCategory := selectedCategory s; showBalance := showBalance s;
       sidebarOpen := v |}).

(** The [onClick] of a button of the sidebar. *)
Definition onSidebarClick (v : ViewMode) : Run unit :=
  setCurrentView v ;;;
  setSidebarOpen false.

(** [loadData] up to its [await]: the request is on its way. *)
Definition loadData_request (userId : jsstring) : Run unit :=
  setLoading true ;;;
  fetchTransactions userId.

(** [loadData] from its [await] on, once the request has settled: the rest
    of [try], or [catch], and then [finally]. *)
Definition loadData_settled (response : Settled ResponseData) : Run unit :=
  match response with
  | fulfilled data =>
      r <- Array_new (data_transactions data) ;;
      setTransactions r ;;;
      setSummary (Some (data_summary data))
  | rejected error =>
      emit (console_error (js "Error loading data:")) ;;;
      r <- Array_new [] ;;
      setTransactions r ;;;
      setSummary None
  end ;;;
  setLoading false.

Definition loadData (userId : jsstring) (response : Settled ResponseData)
    : Run unit :=
  loadData_request userId ;;;
  loadData_settled response.

(** [loadData()] is called and not awaited, so the alert of success is
    raised while its request is pending. *)
Definition handleRemoveTransaction (userId transactionId : jsstring)
    (isConfirmed : bool) (deleted : Settled unit)
    (reloaded : Settled ResponseData) : Run unit :=
  emit (window_confirm (js "Tem certeza que deseja apagar esta transação?")) ;;;
  if isConfirmed then
    deleteTransaction userId transactionId ;;;
    match deleted with
    | fulfilled _ =>
        loadData_request userId ;;;
        emit (window_alert (js "Transação excluída com sucesso!")) ;;;
        loadData_settled reloaded
    | rejected error =>
        emit (console_error (js "Erro ao excluir transação:")) ;;;
        emit (window_alert (js "Erro ao excluir transação."))
    end
  else ret tt.

Definition isExpense (t : Transaction) : bool :=
  TransactionType_eqb (type t) expense.

Definition isIncome (t : Transaction) : bool :=
  TransactionType_eqb (type t) income.

Definition matchesSearch (searchTerm : jsstring) (t : Transaction) : bool :=
  includes (toLowerCase (description t)) (toLowerCase searchTerm) ||
  includes (toLowerCase (category t)) (toLowerCase searchTerm).

Definition inCategory (selectedCategory : jsstring) (t : Transaction) : bool :=
  jsstring_eqb (category t) selectedCategory.

Definition newestFirst (a b : Transaction) : option Z :=
  Number_sub (Date_getTime (createdAt b)) (Date_getTime (createdAt a)).

Definition getFilteredTransactions : Run ref :=
  s <- getState ;;
  let filtered := transactions s in
  filtered <-
    match currentView s with
    | view_expenses => Array_filter isExpense filtered
    | view_income => Array_filter isIncome filtered
    | _ => ret filtered
    end ;;
  filtered <-
    (if truthy (searchTerm s)
     then Array_filter (matchesSearch (searchTerm s)) filtered
     else ret filtered) ;;
  filtered <-
    (if truthy (selectedCategory s)
     then Array_filter (inCategory (selectedCategory s)) filtered
     else ret filtered) ;;
  Array_sort newestFirst filtered.

(** Every array of [getCategories] is its own: the mapped array, and the
    array spread from the set, which [sort()] sorts. *)
Definition getCategories : Run (list jsstring) :=
  s <- getState ;;
  l <- Array_read (transactions s) ;;
  let categories := Set_from (map category l) in
  ret (sort defaultCompare categories).

(** The controls of [renderFilters]. *)
Record Filters := {
  searchInput : jsstring;
  categorySelect : jsstring;
  categoryOptions : list jsstring
}.

Definition renderFilters : Run (option Filters) :=
  s <- getState ;;
  match currentView s with
  | view_dashboard => ret None
  | _ =>
      options <- getCategories ;;
      ret (Some {| searchInput := searchTerm s;
                   categorySelect := selectedCategory s;
                   categoryOptions := options |})
  end.

(** What [renderTransactionsList] shows: the count under the title, the
    rows (none is the empty-state message), and whether the button to see
    all transactions is there. *)
Record TransactionsList := {
  found : nat;
  rows : list Transaction;
  seeAll : bool
}.

Definition isDashboard (v : ViewMode) : bool :=
  match v with
  | view_dashboard => true
  | _ => false
  end.

Definition renderTransactionsList : Run TransactionsList :=
  s <- getState ;;
  filteredTransactions <- getFilteredTransactions ;;
  l <- Array_read filteredTransactions ;;
  shown <-
    (if Nat.eqb (List.length l) 0 then ret []
     else
       r <- Array_slice0 (if isDashboard (currentView s) then Some 5%nat else None)
              filteredTransactions ;;
       Array_read r) ;;
  ret {| found := List.length l;
         rows := shown;
         seeAll := isDashboard (currentView s) && Nat.ltb 5 (List.length l) |}.

Inductive Screen :=
| LoadingScreen
| AccessDenied
| Dashboard (filters : option Filters) (list : TransactionsList).

(** The body of the component after its hooks. *)
Definition render (userId : jsstring) : Run Screen :=
  s <- getState ;;
  if loading s then ret LoadingScreen
  else if negb (truthy userId) then ret AccessDenied
  else
    filters <- renderFilters ;;
    list <- renderTransactionsList ;;
    ret (Dashboard filters list).

(** The component before its first render: the initial values of
    [useState]. *)
Definition initialWorld : World :=
  {| state := {| transactions := 0%nat; summary := None; loading := true;
                 currentView := view_dashboard; searchTerm := [];
                 selectedCategory := []; showBalance := true;
                 sidebarOpen := false |};
     store := [[]];
     effects := [] |}.

(** Mounting: [userId] is read from the URL and the effect runs
    [loadData]. *)
Definition mount (params : URLSearchParams) (response : Settled ResponseData)
    : Run unit :=
  loadData (getUserIdFromUrl params) response.

(** The derived list: what a call of [getFilteredTransactions] returns. *)
Definition derived (w : World) : list Transaction :=
  let (r, w') := getFilteredTransactions w in deref (store w') r.

(** The stored list: the array that the state [transactions] refers to. *)
Definition stored (w : World) : list Transaction :=
  deref (store w) (transactions (state w)).

(** The world after a call of [getFilteredTransactions]. *)
Definition afterDerive (w : World) : World := snd (getFilteredTransactions w).

(** The three filters of [getFilteredTransactions] on lists. *)
Definition byView (v : ViewMode) (l : list Transaction) : list Transaction :=
  match v with
  | view_expenses => filter isExpense l
  | view_income => filter isIncome l
  | _ => l
  end.

Definition bySearch (term : jsstring) (l : list Transaction) : list Transaction :=
  if truthy term then filter (matchesSearch term) l else l.

Definition byCategory (c : jsstring) (l : list Transaction) : list Transaction :=
  if truthy c then filter (inCategory c) l else l.

(** Does some filter of [getFilteredTransactions] apply in state [s]? *)
Definition filtering (s : State) : bool :=
  match currentView s with
  | view_expenses | view_income => true
  | _ => truthy (searchTerm s) || truthy (selectedCategory s)
  end.

(** The test that the three filters make together. *)
Definition selects (s : State) (t : Transaction) : bool :=
  match currentView s with
  | view_expenses => isExpense t
  | view_income => isIncome t
  | _ => true
  end
  && (if truthy (searchTerm s) then matchesSearch (searchTerm s) t else true)
  && (if truthy (selectedCategory s) then inCategory (selectedCategory s) t else true).

(** The references of a world point into its store. *)
Definition wellFormed (w : World) : Prop :=
  (transactions (state w) < List.length (store w))%nat.

(** *** The vocabulary of the properties *)

(** [l'] is [l] with exactly the elements that satisfy [P], in the order
    and number in which they stand in [l]. *)
Inductive Kept (P : Transaction -> Prop)
  : list Transaction -> list Transaction -> Prop :=
| Kept_nil : Kept P [] []
| Kept_keep (t : Transaction) (l l' : list Transaction) :
    P t -> Kept P l l' -> Kept P (t :: l) (t :: l')
| Kept_drop (t : Transaction) (l l' : list Transaction) :
    ~ P t -> Kept P l l' -> Kept P (t :: l) l'.

(** [p] occurs in [s]. *)
Definition occursIn (p s : jsstring) : Prop :=
  exists before after : jsstring, s = before ++ p ++ after.

(** [term] occurs in [text] when the case of letters is ignored. *)
Definition containsIgnoringCase (term text : jsstring) : Prop :=
  occursIn (toLowerCase term) (toLowerCase text).

(** A transaction that the search for [term] keeps. *)
Definition searchHit (term : jsstring) (t : Transaction) : Prop :=
  containsIgnoringCase term (description t) \/
  containsIgnoringCase term (category t).

(** The creation time of a transaction. *)
Definition timeOf (t : Transaction) : option Z := Date_getTime (createdAt t).

Definition validDate (t : Transaction) : Prop := timeOf t <> None.

Definition hasTime (T : Z) (t : Transaction) : bool :=
  match timeOf t with
  | Some x => x =? T
  | None => false
  end.

(** In [l] a transaction with the greater creation time stands before one
    with the smaller. *)
Definition newestFirstOrder (l : list Transaction) : Prop :=
  forall (i j : nat) (a b : Transaction) (ta tb : Z),
    nth_error l i = Some a -> nth_error l j = Some b ->
    timeOf a = Some ta -> timeOf b = Some tb ->
    ta > tb -> (i < j)%nat.

(** The world after [handleRemoveTransaction]. *)
Definition afterRemove (userId transactionId : jsstring) (isConfirmed : bool)
    (deleted : Settled unit) (reloaded : Settled ResponseData) (w : World)
    : World :=
  snd (handleRemoveTransaction userId transactionId isConfirmed deleted
         reloaded w).

(** The world after [loadData]. *)
Definition afterLoad (userId : jsstring) (response : Settled ResponseData)
    (w : World) : World :=
  snd (loadData userId response w).

(** The list of the state changes only after a refetch that succeeded. *)
Definition changesOnlyAfterRefetch (userId transactionId : jsstring)
    (isConfirmed : bool) (deleted : Settled unit)
    (reloaded : Settled ResponseData) (w : World) : Prop :=
  stored (afterRemove userId transactionId isConfirmed deleted reloaded w)
    <> stored w ->
  exists data : ResponseData, reloaded = fulfilled data.

(** The resolved identifier is the parameter [userId] when the URL has it,
    and the placeholder otherwise. *)
Definition resolvesToParameter (params : URLSearchParams) : Prop :=
  getUserIdFromUrl params =
  match URLSearchParams_get params (js "userId") with
  | Some v => v
  | None => js "default_user"
  end.

(** The call of [getFilteredTransactions] leaves the stored list as it
    is. *)
Definition leavesStoredList (w : World) : Prop :=
  stored (afterDerive w) = stored w.

Definition isAlert (e : Effect) : bool :=
  match e with
  | window_alert _ => true
  | _ => false
  end.

Definition isRequest (e : Effect) : bool :=
  match e with
  | axios_get _ | axios_delete _ => true
  | _ => false
  end.

End FinanceDashboard.

(* ================================================================== *)
(** ** The rest of the page: cards, charts and controls *)

(** [new Intl.NumberFormat('pt-BR', { style: 'currency', currency: 'BRL' })
    .format], which belongs to the engine. *)
Class Intl := {
  NumberFormat_BRL : float -> jsstring
}.

(** The palette of the charts. *)
Definition COLORS : list jsstring :=
  [js "#60A5FA"; js "#34D399"; js "#FBBF24"; js "#F87171"; js "#A78BFA";
   js "#FB7185"].

(** An entry of the data of a chart. *)
Record ChartEntry := {
  name : jsstring;
  value : float
}.

(** [Object.entries(categorySummary).map(...)]; the summary holds the
    entries of the object in the order in which [Object.entries] lists
    them. *)
Definition prepareCategoryData (categorySummary : list (jsstring * float))
    : list ChartEntry :=
  map (fun entry => {| name := fst entry; value := snd entry |}) categorySummary.

(** The [fill] of the cells of the pie, one for each entry:
    [COLORS[index % COLORS.length]], [None] being [undefined]. *)
Definition cellFills (data : list ChartEntry) : list (option jsstring) :=
  map (fun index => nth_error COLORS (index mod List.length COLORS))
      (seq 0 (List.length data)).

Record Charts := {
  pieData : list ChartEntry;
  pieCells : list (option jsstring);
  barData : list ChartEntry
}.

Definition renderCharts : Run (option Charts) :=
  s <- getState ;;
  match summary s with
  | None => ret None
  | Some sm =>
      if Nat.eqb (List.length (categorySummary sm)) 0 then ret None
      else
        ret (Some {| pieData := prepareCategoryData (categorySummary sm);
                     pieCells := cellFills (prepareCategoryData (categorySummary sm));
                     barData := prepareCategoryData (categorySummary sm) |})
  end.

(** The four cards: the text of the balance and whether it is drawn as not
    negative, the texts of income and expenses, and the count. *)
Record SummaryCards := {
  balanceText : jsstring;
  balanceNotNegative : bool;
  incomeText : jsstring;
  expensesText : jsstring;
  countShown : float
}.

Definition setShowBalance (v : bool) : Run unit :=
  setState (fun s =>
    {| transactions := transactions s; summary := summary s; loading := loading s;
       currentView := currentView s; searchTerm := searchTerm s;
       selectedCategory := selectedCategory s; showBalance := v;
       sidebarOpen := sidebarOpen s |}).

(** The controls of the page and what the user does with them; the click on
    the bin of a row is [handleRemoveTransaction]. *)
Inductive UiEvent :=
| click_back
| click_menu
| click_overlay
| click_sidebar (v : ViewMode)
| click_card (v : ViewMode)
| click_eye
| change_search (text : jsstring)
| change_category (option : jsstring)
| click_seeAll.

(** The handler of each control, as the JSX gives it. *)
Definition onEvent (e : UiEvent) : Run unit :=
  match e with
  | click_back => setCurrentView view_dashboard
  | click_menu => s <- getState ;; setSidebarOpen (negb (sidebarOpen s))
  | click_overlay => setSidebarOpen false
  | click_sidebar v => onSidebarClick v
  | click_card v => setCurrentView v
  | click_eye => s <- getState ;; setShowBalance (negb (showBalance s))
  | change_search text => setSearchTerm text
  | change_category option => setSelectedCategory option
  | click_seeAll => setCurrentView view_transactions
  end.

Section FinanceDashboardPage.
Context {host : Host}.

Definition formatCurrency {intl : Intl} (amount : float) : jsstring :=
  NumberFormat_BRL amount.

Definition renderSummaryCards {intl : Intl} : Run (option SummaryCards) :=
  s <- getState ;;
  match summary s with
  | None => ret None
  | Some sm =>
      ret (Some {| balanceText :=
                     if showBalance s then formatCurrency (balance sm)
                     else js "••••";
                   balanceNotNegative := (0 <=? balance sm)%float;
                   incomeText := formatCurrency (totalIncome sm);
                   expensesText := formatCurrency (totalExpenses sm);
                   countShown := transactionCount sm |})
  end.

(** The charts stand on the dashboard only. *)
Definition renderChartsSection : Run (option Charts) :=
  s <- getState ;;
  if isDashboard (currentView s) then renderCharts else ret None.

(** Is the control of [e] on the page that world [w] renders?  While
    [loading] the page is replaced by the loading screen.  The back button
    and the filters are left out on the dashboard, the overlay is there
    while the sidebar is open, the cards need a summary, the select offers
    the empty option and the categories, and the button to see all is on the
    dashboard when more than five transactions are found. *)
Definition offered (w : World) (e : UiEvent) : bool :=
  negb (loading (state w)) &&
  match e with
  | click_back => negb (isDashboard (currentView (state w)))
  | click_menu => true
  | click_overlay => sidebarOpen (state w)
  | click_sidebar _ => true
  | click_card _ | click_eye =>
      match summary (state w) with
      | Some _ => true
      | None => false
      end
  | change_search _ => negb (isDashboard (currentView (state w)))
  | change_category option =>
      negb (isDashboard (currentView (state w))) &&
      (negb (truthy option) ||
       existsb (jsstring_eqb option) (fst (getCategories w)))
  | click_seeAll =>
      isDashboard (currentView (state w)) &&
      Nat.ltb 5 (List.length (derived w))
  end.

(** One step of the mounted component between two moments of rest: the
    user works a control that is offered, the component renders again, or
    the user clicks the bin of a row that is shown, answers the
    confirmation, and the requests settle. *)
Inductive Step (userId : jsstring) : World -> World -> Prop :=
| Step_event (w : World) (e : UiEvent) :
    offered w e = true -> Step userId w (snd (onEvent e w))
| Step_render (w : World) :
    Step userId w (snd (render userId w))
| Step_bin (w : World) (t : Transaction) (isConfirmed : bool)
    (deleted : Settled unit) (reloaded : Settled ResponseData) :
    loading (state w) = false ->
    In t (rows (fst (renderTransactionsList w))) ->
    Step userId w (afterRemove userId (_id t) isConfirmed deleted reloaded w).

(** The worlds that the component of a page with parameters [params] comes
    to rest in: after mounting, and after each step. *)
Inductive Reachable (params : URLSearchParams) : World -> Prop :=
| Reachable_mount (response : Settled ResponseData) :
    Reachable params (snd (mount params response initialWorld))
| Reachable_step (w w' : World) :
    Reachable params w -> Step (getUserIdFromUrl params) w w' ->
    Reachable params w'.

(** An effect that is no request, or a request under
    [/transactions/userId]. *)
Definition requestFor (userId : jsstring) (e : Effect) : Prop :=
  match e with
  | axios_get url => url = API_URL ++ js "/transactions/" ++ userId
  | axios_delete url =>
      exists transactionId : jsstring,
        url = API_URL ++ js "/transactions/" ++ userId ++ js "/" ++ transactionId
  | _ => True
  end.

End FinanceDashboardPage.

(* ================================================================== *)
(** ** The demonstration variant of the component

    [components/FinanceDashboard.tsx] differs from the variant above in
    [loadData], which sets two transactions made on the spot, and in
    [handleRemoveTransaction], whose request is commented out. *)

Module Demo.

(** The two calls of [new Date().toISOString()] yield [now1] and [now2]. *)
Definition mockTransactions (now1 now2 : jsstring) : list Transaction :=
  [ {| _id := js "1"; type := expense; amount := 50;
       description := js "Mercado"; category := js "Alimentação";
       createdAt := now1; userId := js "user1" |};
    {| _id := js "2"; type := income; amount := 1000;
       description := js "Salário"; category := js "Trabalho";
       createdAt := now2; userId := js "user1" |} ].

Definition mockSummary : Summary :=
  {| totalIncome := 1000; totalExpenses := 50; balance := 950;
     categorySummary := [(js "Alimentação", 50%float); (js "Trabalho", 1000%float)];
     transactionCount := 2 |}.

(** Nothing is awaited, so the call runs through at once; nothing in [try]
    throws. *)
Definition loadData (now1 now2 : jsstring) : Run unit :=
  setLoading true ;;;
  r <- Array_new (mockTransactions now1 now2) ;;
  setTransactions r ;;;
  setSummary (Some mockSummary) ;;;
  setLoading false.

Definition handleRemoveTransaction (transactionId : jsstring)
    (isConfirmed : bool) (now1 now2 : jsstring) : Run unit :=
  emit (window_confirm (js "Tem certeza que deseja apagar esta transação?")) ;;;
  if isConfirmed then
    loadData now1 now2 ;;;
    emit (window_alert (js "Transação excluída com sucesso!"))
  else ret tt.

End Demo.

(* ================================================================== *)
(** ** Data for the examples *)

Definition transaction (id : string) (ty : TransactionType) (value : float)
    (desc cat created : string) : Transaction :=
  {| _id := js id; type := ty; amount := value; description := js desc;
     category := js cat; createdAt := js created; userId := js "user1" |}.

(** The two transactions of the demonstration data. *)
Definition mercado : Transaction :=
  transaction "1" expense 50 "Mercado" "Alimentação" "2024-03-01T10:00:00.000Z".

Definition salario : Transaction :=
  transaction "2" income 1000 "Salário" "Trabalho" "2024-03-05T09:30:00.000Z".

Definition undated : Transaction :=
  transaction "3" expense 20 "Lanche" "Alimentação" "".

Definition uber (day : string) : Transaction :=
  transaction day expense 15 "Uber" "Transporte"
    ("2024-04-" ++ day ++ "T08:00:00.000Z").

(** A dated Lanche, and a ride at the very time of [uber "02"]. *)
Definition lanche : Transaction :=
  transaction "4" expense 20 "Lanche" "Alimentação" "2024-03-03T12:00:00.000Z".

Definition taxi : Transaction :=
  transaction "9" expense 30 "Táxi" "Transporte" "2024-04-02T08:00:00.000Z".

(** A transaction whose date is no date. *)
Definition nodate (id : string) : Transaction :=
  transaction id expense 20 "Lanche" "Alimentação" "".

(** A loaded dashboard whose state refers to an array with the elements
    [l]. *)
Definition worldOf (l : list Transaction) (view : ViewMode)
    (term cat : string) : World :=
  {| state := {| transactions := 0%nat; summary := None; loading := false;
                 currentView := view; searchTerm := js term;
                 selectedCategory := js cat; showBalance := true;
                 sidebarOpen := false |};
     store := [l];
     effects := [] |}.

(** The dashboard after this session: it mounts and loads three
    transactions, the user opens the view of all transactions, types a
    search term and goes back to the dashboard. *)
Definition typedThenDashboard : World :=
  snd ((@mount demoHost []
          (fulfilled {| data_transactions := [mercado; salario; undated];
                        data_summary :=
                          {| totalIncome := 1000; totalExpenses := 70;
                             balance := 930;
                             categorySummary :=
                               [(js "Alimentação", 70%float);
                                (js "Trabalho", 1000%float)];
                             transactionCount := 3 |} |}) ;;;
        onSidebarClick view_transactions ;;;
        setSearchTerm (js "lanche") ;;;
        onSidebarClick view_dashboard) (@initialWorld)).

(** The dashboard after this session: it mounts and loads four
    transactions, the user opens the view of all transactions, types the
    search term an, selects the category Alimentação and goes back to the
    dashboard.  Of the four, Mercado is of the category and does not match
    the term, Uber matches the term (in Transporte) and is of another
    category, Salário does neither, and Lanche does both. *)
Definition filteredThenDashboard : World :=
  snd ((@mount demoHost []
          (fulfilled {| data_transactions := [mercado; salario; lanche; uber "01"];
                        data_summary :=
                          {| totalIncome := 1000; totalExpenses := 85;
                             balance := 915;
                             categorySummary :=
                               [(js "Alimentação", 70%float);
                                (js "Trabalho", 1000%float);
                                (js "Transporte", 15%float)];
                             transactionCount := 4 |} |}) ;;;
        onEvent (click_sidebar view_transactions) ;;;
        onEvent (change_search (js "an")) ;;;
        onEvent (change_category (js "Alimentação")) ;;;
        onEvent (click_sidebar view_dashboard)) (@initialWorld)).

(** Two transactions of one creation time among two others, in the view of
    all transactions. *)
Definition twoAtOneTime : World :=
  worldOf [mercado; taxi; salario; uber "02"] view_transactions "" "".

(** A response with the two transactions of the demonstration data. *)
Definition demoResponse : ResponseData :=
  {| data_transactions := [mercado; salario];
     data_summary :=
       {| totalIncome := 1000; totalExpenses := 50; balance := 950;
          categorySummary :=
            [(js "Alimentação", 50%float); (js "Trabalho", 1000%float)];
          transactionCount := 2 |} |}.

(** The dashboard of user ana at rest: it has loaded [demoResponse], and
    the user has opened the view of expenses from the sidebar. *)
Definition anaAtExpenses : World :=
  snd (onEvent (click_sidebar view_expenses)
         (snd (@mount demoHost [(js "userId", js "ana")] (fulfilled demoResponse)
                 initialWorld))).

(** A dashboard with eight transactions of eight days. *)
Definition eightUbers : World :=
  worldOf [uber "01"; uber "02"; uber "03"; uber "04"; uber "05"; uber "06";
           uber "07"; uber "08"] view_dashboard "" "".

(** The data of a chart of eight categories. *)
Definition eightEntries : list ChartEntry :=
  prepareCategoryData
    (map (fun c => (js c, 10%float))
         ["a"; "b"; "c"; "d"; "e"; "f"; "g"; "h"]%string).

(* ================================================================== *)
(** ** Facts about the store, the sort and strings *)

(* ------------------------------------------------------------------ *)
(** *** The store *)

Lemma deref_new (st : Store) (l : list Transaction) :
  deref (st ++ [l]) (List.length st) = l.
Proof.
  unfold deref. rewrite app_nth2 by lia. now rewrite Nat.sub_diag.
Qed.

Lemma deref_old (st : Store) (l : list Transaction) (r : ref) :
  (r < List.length st)%nat -> deref (st ++ [l]) r = deref st r.
Proof.
  intros H. unfold deref. now rewrite app_nth1.
Qed.

Lemma assign_length (st : Store) (r : ref) (l : list Transaction) :
  List.length (assign st r l) = List.length st.
Proof.
  revert r; induction st as [|a st IH]; intros [|r]; simpl; auto.
Qed.

Lemma deref_assign (st : Store) (r : ref) (l : list Transaction) :
  (r < List.length st)%nat -> deref (assign st r l) r = l.
Proof.
  revert r; induction st as [|a st IH]; intros [|r] H; simpl in *; try lia; auto.
  apply IH; lia.
Qed.

Lemma deref_assign_other (st : Store) (r r' : ref) (l : list Transaction) :
  r <> r' -> deref (assign st r l) r' = deref st r'.
Proof.
  revert r r'; induction st as [|a st IH]; intros [|r] [|r'] H; simpl; auto;
    try congruence.
  apply IH; congruence.
Qed.

Lemma assign_dangling (st : Store) (r : ref) (l : list Transaction) :
  (List.length st <= r)%nat -> assign st r l = st.
Proof.
  revert r; induction st as [|a st IH]; intros [|r] H; simpl in *; auto; try lia.
  f_equal; apply IH; lia.
Qed.

Lemma deref_dangling (st : Store) (r : ref) :
  (List.length st <= r)%nat -> deref st r = [].
Proof.
  intros H; unfold deref; now apply nth_overflow.
Qed.

(** Sorting a cell in place and reading it back; the sort of no elements
    has no elements. *)
Lemma deref_assign_sort {host : Host} (st : Store) (r : ref)
    (f : Transaction -> Transaction -> option Z) :
  deref (assign st r (sort f (deref st r))) r = sort f (deref st r).
Proof.
  destruct (Nat.lt_ge_cases r (List.length st)) as [H|H].
  - now apply deref_assign.
  - rewrite assign_dangling by exact H. rewrite deref_dangling by exact H.
    symmetry. apply Permutation_nil, Permutation_sym, sort_permutes.
Qed.

Lemma deref_assign_new (st : Store) (l l' : list Transaction) :
  deref (assign (st ++ [l]) (List.length st) l') (List.length st) = l'.
Proof.
  apply deref_assign. rewrite length_app; simpl; lia.
Qed.

(* ------------------------------------------------------------------ *)
(** *** The sort *)

Section SortFacts.
Variable A : Type.
Variable f : A -> A -> option Z.


Lemma insert_perm (x : A) (l : list A) : Permutation (insert f x l) (x :: l).
Proof.
  induction l as [|y l IH]; simpl.
  - apply Permutation_refl.
  - destruct (SortCompare f x y <=? 0).
    + apply Permutation_refl.
    + eapply perm_trans; [apply perm_skip, IH | apply perm_swap].
Qed.

Lemma stableSort_perm (l : list A) : Permutation (stableSort f l) l.
Proof.
  induction l as [|x l IH]; simpl.
  - constructor.
  - eapply perm_trans; [apply insert_perm | now apply perm_skip].
Qed.

Lemma stableSort_In (l : list A) (x : A) : In x (stableSort f l) <-> In x l.
Proof.
  split; apply Permutation_in; [|symmetry]; apply stableSort_perm.
Qed.

Lemma stableSort_length (l : list A) : List.length (stableSort f l) = List.length l.
Proof. apply Permutation_length, stableSort_perm. Qed.

(** Stability: elements that compare as equal among themselves are never
    moved past each other. *)
Lemma filter_insert (q : A -> bool) (x : A) (l : list A) :
  (forall a b, q a = true -> q b = true -> SortCompare f a b <= 0) ->
  filter q (insert f x l) = filter q (x :: l).
Proof.
  intros Hq. induction l as [|y l IH]; [reflexivity|].
  cbn [insert]. destruct (SortCompare f x y <=? 0) eqn:E; [reflexivity|].
  cbn [filter] in *. rewrite IH.
  destruct (q x) eqn:Qx, (q y) eqn:Qy; try reflexivity.
  apply Z.leb_gt in E. specialize (Hq x y Qx Qy). lia.
Qed.

Lemma stableSort_stable (q : A -> bool) (l : list A) :
  (forall a b, q a = true -> q b = true -> SortCompare f a b <= 0) ->
  filter q (stableSort f l) = filter q l.
Proof.
  intros Hq. induction l as [|x l IH]; [reflexivity|].
  cbn [stableSort]. rewrite filter_insert by exact Hq.
  cbn [filter]. now rewrite IH.
Qed.




Hypothesis f_antisym : forall x y, SortCompare f x y > 0 -> SortCompare f y x <= 0.




(** On elements on which the comparison is transitive, the result is
    sorted throughout. *)
Variable P : A -> Prop.
Hypothesis f_trans : forall x y z, P x -> P y -> P z -> (mayPrecede f) x y -> (mayPrecede f) y z -> (mayPrecede f) x z.

Lemma insert_StronglySorted (x : A) (l : list A) :
  P x -> Forall P l -> StronglySorted (mayPrecede f) l -> StronglySorted (mayPrecede f) (insert f x l).
Proof using f_antisym f_trans.
  intros Px Pl Hs. induction Hs as [|y l Hs IH Hy]; cbn [insert].
  - repeat constructor.
  - inversion_clear Pl as [|? ? Py Pl'].
    destruct (SortCompare f x y <=? 0) eqn:E.
    + apply Z.leb_le in E. constructor; [now constructor|].
      constructor; [exact E|].
      rewrite Forall_forall in *. intros z Hz.
      apply f_trans with y; auto.
    + apply Z.leb_gt in E. constructor; [now apply IH|].
      apply Permutation_Forall with (x :: l);
        [symmetry; apply insert_perm|].
      constructor; [|exact Hy]. apply f_antisym. lia.
Qed.

Lemma stableSort_StronglySorted (l : list A) :
  Forall P l -> StronglySorted (mayPrecede f) (stableSort f l).
Proof using f_antisym f_trans.
  induction 1 as [|x l Px Pl IH]; cbn [stableSort]; [constructor|].
  apply insert_StronglySorted; auto.
  apply Permutation_Forall with l; [symmetry; apply stableSort_perm | exact Pl].
Qed.

End SortFacts.

(** What holds of the sort of every host. *)
Lemma sort_perm {host : Host} (A : Type) (f : A -> A -> option Z) (l : list A) :
  Permutation (sort f l) l.
Proof. apply sort_permutes. Qed.

Lemma sort_In {host : Host} (A : Type) (f : A -> A -> option Z) (l : list A)
    (x : A) :
  In x (sort f l) <-> In x l.
Proof.
  split; apply Permutation_in; [|symmetry]; apply sort_perm.
Qed.

Lemma sort_nil {host : Host} (A : Type) (f : A -> A -> option Z) :
  sort f [] = [].
Proof. apply Permutation_nil, Permutation_sym, sort_perm. Qed.

Lemma sort_length {host : Host} (A : Type) (f : A -> A -> option Z) (l : list A) :
  List.length (sort f l) = List.length l.
Proof. apply Permutation_length, sort_perm. Qed.

(** The requirements on a consistent comparator, as propositions. *)
Lemma consistent_intro (A : Type) (f : A -> A -> option Z) (l : list A) :
  (forall a b c : A,
     In a l -> In b l -> In c l ->
     f a b <> None /\
     SortCompare f a a = 0 /\
     (SortCompare f a b = 0 -> SortCompare f b a = 0) /\
     (SortCompare f a b = 0 -> SortCompare f b c = 0 -> SortCompare f a c = 0) /\
     (SortCompare f a b < 0 -> SortCompare f b c < 0 -> SortCompare f a c < 0) /\
     (0 < SortCompare f a b -> 0 < SortCompare f b c -> 0 < SortCompare f a c)) ->
  consistent f l = true.
Proof.
  intros H. unfold consistent.
  apply forallb_forall; intros a Ha.
  apply forallb_forall; intros b Hb.
  apply forallb_forall; intros c Hc.
  destruct (H a b c Ha Hb Hc) as (H0 & H1 & H2 & H3 & H4 & H5).
  unfold consistentAt.
  repeat (apply andb_true_iff; split).
  - destruct (f a b); [reflexivity | contradiction].
  - now apply Z.eqb_eq.
  - destruct (SortCompare f a b =? 0) eqn:E; [cbn|reflexivity].
    apply Z.eqb_eq. apply H2. now apply Z.eqb_eq.
  - destruct (SortCompare f a b =? 0) eqn:E1; [|reflexivity].
    destruct (SortCompare f b c =? 0) eqn:E2; [cbn|reflexivity].
    apply Z.eqb_eq. apply H3; now apply Z.eqb_eq.
  - destruct (SortCompare f a b <? 0) eqn:E1; [|reflexivity].
    destruct (SortCompare f b c <? 0) eqn:E2; [cbn|reflexivity].
    apply Z.ltb_lt. apply H4; now apply Z.ltb_lt.
  - destruct (0 <? SortCompare f a b) eqn:E1; [|reflexivity].
    destruct (0 <? SortCompare f b c) eqn:E2; [cbn|reflexivity].
    apply Z.ltb_lt. apply H5; now apply Z.ltb_lt.
Qed.



Lemma StronglySorted_nth (A : Type) (R : A -> A -> Prop) (l : list A) :
  StronglySorted R l ->
  forall (i j : nat) (a b : A),
    (i < j)%nat -> nth_error l i = Some a -> nth_error l j = Some b -> R a b.
Proof.
  induction 1 as [|x l Hs IH Hx]; intros i j a b Hij Hi Hj.
  - destruct i; discriminate.
  - destruct j as [|j]; [lia|]. cbn in Hj.
    destruct i as [|i]; cbn in Hi.
    + injection Hi as <-. rewrite Forall_forall in Hx.
      apply Hx. eapply nth_error_In; eauto.
    + apply (IH i j); auto; lia.
Qed.

(* ------------------------------------------------------------------ *)
(** *** Strings *)

Lemma jsstring_eqb_eq (a b : jsstring) : jsstring_eqb a b = true <-> a = b.
Proof.
  revert b; induction a as [|x a IH]; intros [|y b]; simpl;
    try (split; [discriminate | discriminate]); try tauto.
  rewrite andb_true_iff, N.eqb_eq, IH. split.
  - now intros [-> ->].
  - intros H; injection H; auto.
Qed.

Lemma jsstring_eqb_refl (a : jsstring) : jsstring_eqb a a = true.
Proof. now apply jsstring_eqb_eq. Qed.

Lemma startsWith_spec (p s : jsstring) :
  startsWith p s = true <-> exists after, s = p ++ after.
Proof.
  revert s; induction p as [|x p IH]; intros s; simpl.
  - split; [intros _; now exists s | reflexivity].
  - destruct s as [|y s].
    + split; [discriminate | intros [after H]; discriminate].
    + rewrite andb_true_iff, N.eqb_eq, IH. split.
      * intros [-> [after ->]]. now exists after.
      * intros [after H]. injection H as -> ->. split; [reflexivity|now exists after].
Qed.

Lemma includes_spec (s p : jsstring) : includes s p = true <-> occursIn p s.
Proof.
  unfold occursIn. induction s as [|c s IH]; simpl.
  - rewrite orb_false_r, startsWith_spec. split.
    + intros [after H]. now exists [], after.
    + intros [before [after H]].
      destruct before; [now exists after | discriminate].
  - rewrite orb_true_iff, startsWith_spec, IH. split.
    + intros [[after H] | [before [after H]]].
      * now exists [], after.
      * exists (c :: before), after. simpl. now rewrite H.
    + intros [[|c' before] [after H]].
      * left. now exists after.
      * right. simpl in H. injection H as _ ->. now exists before, after.
Qed.

Lemma jsstring_ltb_irrefl (a : jsstring) : jsstring_ltb a a = false.
Proof.
  induction a as [|x a IH]; simpl; [reflexivity|].
  now rewrite N.ltb_irrefl, N.eqb_refl, IH.
Qed.

Lemma jsstring_ltb_trans (a b c : jsstring) :
  jsstring_ltb a b = true -> jsstring_ltb b c = true -> jsstring_ltb a c = true.
Proof.
  revert b c; induction a as [|x a IH]; intros [|y b] [|z c]; simpl;
    try discriminate; auto.
  rewrite !orb_true_iff, !andb_true_iff, !N.ltb_lt, !N.eqb_eq.
  intros [Hxy | [-> Hab]] [Hyz | [-> Hbc]].
  - left; lia.
  - now left.
  - now left.
  - right; split; [reflexivity|]. now apply IH with b.
Qed.

Lemma jsstring_ltb_total (a b : jsstring) :
  jsstring_ltb a b = false -> jsstring_ltb b a = false -> a = b.
Proof.
  revert b; induction a as [|x a IH]; intros [|y b]; simpl;
    try discriminate; auto.
  rewrite !orb_false_iff, !andb_false_iff, !N.ltb_ge, !N.eqb_neq.
  intros [Hxy Hab] [Hyx Hba].
  assert (x = y) as -> by lia.
  f_equal. apply IH.
  - destruct Hab as [Hab|Hab]; [congruence | exact Hab].
  - destruct Hba as [Hba|Hba]; [congruence | exact Hba].
Qed.

Lemma jsstring_ltb_asym (a b : jsstring) :
  jsstring_ltb a b = true -> jsstring_ltb b a = false.
Proof.
  intros H. destruct (jsstring_ltb b a) eqn:E; [|reflexivity].
  pose proof (jsstring_ltb_trans _ _ _ H E) as C.
  now rewrite jsstring_ltb_irrefl in C.
Qed.

(** The default comparison orders as [<] does. *)
Lemma defaultCompare_le (x y : jsstring) :
  SortCompare defaultCompare x y <= 0 <-> jsstring_ltb y x = false.
Proof.
  unfold SortCompare, defaultCompare.
  destruct (jsstring_ltb x y) eqn:Exy.
  - apply jsstring_ltb_asym in Exy. rewrite Exy. split; [reflexivity | lia].
  - destruct (jsstring_ltb y x); split; try lia; try discriminate; reflexivity.
Qed.

Lemma Set_add_In (x y : jsstring) (s : list jsstring) :
  In y (Set_add x s) <-> y = x \/ In y s.
Proof.
  induction s as [|z s IH]; simpl.
  - intuition congruence.
  - destruct (jsstring_eqb z x) eqn:E.
    + apply jsstring_eqb_eq in E as ->. simpl. intuition congruence.
    + simpl. rewrite IH. intuition congruence.
Qed.

Lemma Set_add_NoDup (x : jsstring) (s : list jsstring) :
  NoDup s -> NoDup (Set_add x s).
Proof.
  induction 1 as [|z s Hz Hs IH]; simpl.
  - constructor; [intros [] | constructor].
  - destruct (jsstring_eqb z x) eqn:E.
    + now constructor.
    + constructor; [|exact IH].
      rewrite Set_add_In. intros [-> | H]; [|contradiction].
      now rewrite jsstring_eqb_refl in E.
Qed.

Lemma fold_Set_add (l : list jsstring) (s : list jsstring) :
  NoDup s ->
  NoDup (fold_left (fun s x => Set_add x s) l s) /\
  forall y, In y (fold_left (fun s x => Set_add x s) l s) <-> In y s \/ In y l.
Proof.
  revert s; induction l as [|x l IH]; intros s Hs; simpl.
  - split; [exact Hs | intros y; tauto].
  - destruct (IH (Set_add x s) (Set_add_NoDup x Hs)) as [Hn Hi].
    split; [exact Hn|]. intros y. rewrite Hi, Set_add_In. intuition congruence.
Qed.

Lemma Set_from_NoDup (l : list jsstring) : NoDup (Set_from l).
Proof. apply fold_Set_add. constructor. Qed.

Lemma Set_from_In (l : list jsstring) (y : jsstring) :
  In y (Set_from l) <-> In y l.
Proof.
  unfold Set_from. destruct (fold_Set_add l (@NoDup_nil jsstring)) as [_ H].
  rewrite H. simpl. tauto.
Qed.

(* ------------------------------------------------------------------ *)
(** *** The categories *)

Lemma defaultCompare_antisym (x y : jsstring) :
  SortCompare defaultCompare x y > 0 -> SortCompare defaultCompare y x <= 0.
Proof.
  intros H. apply defaultCompare_le.
  destruct (jsstring_ltb x y) eqn:E; [|reflexivity].
  assert (SortCompare defaultCompare x y <= 0); [|lia].
  apply defaultCompare_le. now apply jsstring_ltb_asym.
Qed.

Lemma defaultCompare_trans (x y z : jsstring) :
  True -> True -> True ->
  mayPrecede defaultCompare x y -> mayPrecede defaultCompare y z ->
  mayPrecede defaultCompare x z.
Proof.
  intros _ _ _. unfold mayPrecede. rewrite !defaultCompare_le.
  intros Hyx Hzy.
  destruct (jsstring_ltb z x) eqn:Hzx; [exfalso|reflexivity].
  destruct (jsstring_ltb x y) eqn:Hxy.
  - pose proof (jsstring_ltb_trans _ _ _ Hzx Hxy). congruence.
  - pose proof (jsstring_ltb_total _ _ Hxy Hyx) as Heq. subst. congruence.
Qed.

Lemma StronglySorted_strict (l : list jsstring) :
  StronglySorted (mayPrecede defaultCompare) l -> NoDup l ->
  StronglySorted (fun a b => jsstring_ltb a b = true) l.
Proof.
  induction 1 as [|x l Hs IH Hx]; intros Hn; [constructor|].
  inversion_clear Hn as [|? ? Hnot Hn'].
  constructor; [now apply IH|].
  rewrite Forall_forall in *. intros y Hy.
  specialize (Hx y Hy). unfold mayPrecede in Hx.
  apply defaultCompare_le in Hx.
  destruct (jsstring_ltb x y) eqn:E; [reflexivity|exfalso].
  apply Hnot. now rewrite (jsstring_ltb_total _ _ E Hx).
Qed.

Lemma defaultCompare_sign (x y : jsstring) :
  (SortCompare defaultCompare x y < 0 <-> jsstring_ltb x y = true) /\
  (SortCompare defaultCompare x y = 0 <-> x = y) /\
  (0 < SortCompare defaultCompare x y <-> jsstring_ltb y x = true).
Proof.
  unfold SortCompare, defaultCompare.
  destruct (jsstring_ltb x y) eqn:Exy.
  - pose proof (jsstring_ltb_asym _ _ Exy) as Eyx. rewrite Eyx.
    repeat split; try lia; try discriminate; auto.
    intros ->. rewrite jsstring_ltb_irrefl in Exy. discriminate.
  - destruct (jsstring_ltb y x) eqn:Eyx.
    + repeat split; try lia; try discriminate; auto.
      intros ->. rewrite jsstring_ltb_irrefl in Eyx. discriminate.
    + repeat split; try lia; try discriminate; auto.
      intros _. now apply jsstring_ltb_total.
Qed.

(** The comparison of strings is a consistent comparator for any strings. *)
Lemma defaultCompare_consistent (l : list jsstring) :
  consistent defaultCompare l = true.
Proof.
  apply consistent_intro. intros a b c _ _ _.
  destruct (defaultCompare_sign a a) as (_ & Haa & _).
  destruct (defaultCompare_sign a b) as (Lab & Eab & Gab).
  destruct (defaultCompare_sign b a) as (_ & Eba & _).
  destruct (defaultCompare_sign b c) as (Lbc & Ebc & Gbc).
  destruct (defaultCompare_sign a c) as (Lac & Eac & Gac).
  repeat split.
  - unfold defaultCompare.
    destruct (jsstring_ltb a b); [|destruct (jsstring_ltb b a)]; discriminate.
  - now apply Haa.
  - intros H. apply Eba. symmetry. now apply Eab.
  - intros H1 H2. apply Eac. transitivity b; [now apply Eab | now apply Ebc].
  - intros H1 H2. apply Lac.
    apply jsstring_ltb_trans with b; [now apply Lab | now apply Lbc].
  - intros H1 H2. apply Gac.
    apply jsstring_ltb_trans with b; [now apply Gbc | now apply Gab].
Qed.

Section Categories.
Context {host : Host}.

(** On strings every host sorts in the stable sorted order. *)
Lemma sort_defaultCompare (l : list jsstring) :
  sort defaultCompare l = stableSort defaultCompare l.
Proof. apply sort_consistent, defaultCompare_consistent. Qed.

(** C6: the categories returned are exactly the categories of the stored
    transactions, each once, in strictly ascending order of the
    lexicographic comparison of strings; and the call changes nothing. *)
Theorem getCategories_sorted_distinct (w : World) :
  let categories := fst (getCategories w) in
  (forall c : jsstring,
     In c categories <-> exists t, In t (stored w) /\ category t = c) /\
  NoDup categories /\
  StronglySorted (fun a b => jsstring_ltb a b = true) categories /\
  snd (getCategories w) = w.
Proof.
  cbv zeta. unfold getCategories, bind, getState, Array_read, ret.
  cbn [fst snd]. fold (stored w).
  set (cs := Set_from (map category (stored w))).
  assert (Hn : NoDup (sort defaultCompare cs)).
  { apply Permutation_NoDup with cs; [symmetry; apply sort_perm|].
    apply Set_from_NoDup. }
  split; [|split; [exact Hn|split; [|reflexivity]]].
  - intros c. rewrite sort_In. unfold cs. rewrite Set_from_In, in_map_iff.
    split; intros [t [H1 H2]]; exists t; auto.
  - apply StronglySorted_strict; [|exact Hn].
    rewrite sort_defaultCompare.
    apply (stableSort_StronglySorted defaultCompare_antisym defaultCompare_trans).
    apply Forall_forall. auto.
Qed.

End Categories.

(* ================================================================== *)
(** ** Properties of the component *)

Section Properties.
Context {host : Host}.

(* ------------------------------------------------------------------ *)
(** *** The comparison of creation times *)

Lemma newestFirst_valid (a b : Transaction) (ta tb : Z) :
  timeOf a = Some ta -> timeOf b = Some tb ->
  SortCompare newestFirst a b = tb - ta.
Proof.
  unfold SortCompare, newestFirst, timeOf. now intros -> ->.
Qed.

Lemma newestFirst_antisym (a b : Transaction) :
  SortCompare newestFirst a b > 0 -> SortCompare newestFirst b a <= 0.
Proof.
  unfold SortCompare, newestFirst, Number_sub.
  destruct (Date_getTime (createdAt a)), (Date_getTime (createdAt b)); lia.
Qed.

Lemma newestFirst_trans (a b c : Transaction) :
  validDate a -> validDate b -> validDate c ->
  mayPrecede newestFirst a b -> mayPrecede newestFirst b c ->
  mayPrecede newestFirst a c.
Proof.
  unfold validDate, timeOf, mayPrecede, SortCompare, newestFirst, Number_sub.
  destruct (Date_getTime (createdAt a)), (Date_getTime (createdAt b)),
    (Date_getTime (createdAt c)); try congruence; lia.
Qed.

Lemma newestFirst_same_time (T : Z) (a b : Transaction) :
  hasTime T a = true -> hasTime T b = true -> SortCompare newestFirst a b <= 0.
Proof.
  unfold hasTime, timeOf, SortCompare, newestFirst, Number_sub.
  destruct (Date_getTime (createdAt a)), (Date_getTime (createdAt b));
    try discriminate.
  rewrite !Z.eqb_eq. lia.
Qed.

(** Among transactions with valid creation dates the comparison is a
    consistent comparator, so every host sorts them in the stable sorted
    order. *)
Lemma newestFirst_consistent (l : list Transaction) :
  Forall validDate l -> consistent newestFirst l = true.
Proof.
  intros Hl. rewrite Forall_forall in Hl.
  apply consistent_intro. intros a b c Ha Hb Hc.
  apply Hl in Ha, Hb, Hc. revert Ha Hb Hc.
  unfold validDate, timeOf, SortCompare, newestFirst, Number_sub.
  destruct (Date_getTime (createdAt a)), (Date_getTime (createdAt b)),
    (Date_getTime (createdAt c)); try congruence; intros _ _ _;
    repeat split; try discriminate; lia.
Qed.

Lemma sort_newestFirst_valid (l : list Transaction) :
  Forall validDate l -> sort newestFirst l = stableSort newestFirst l.
Proof. intros Hl. apply sort_consistent, newestFirst_consistent, Hl. Qed.

(* ------------------------------------------------------------------ *)
(** *** [getFilteredTransactions] as a function of the stored list *)

Ltac run_derive :=
  unfold derived, afterDerive, stored, getFilteredTransactions, Array_filter,
    Array_sort, Array_read, Array_write, Array_new, getState, bind, ret;
  cbn [state store effects fst snd].

Lemma derived_pipeline (w : World) :
  derived w =
  sort newestFirst
    (byCategory (selectedCategory (state w))
       (bySearch (searchTerm (state w))
          (byView (currentView (state w)) (stored w)))).
Proof.
  destruct w as [s st ef]. unfold byCategory, bySearch, byView.
  run_derive.
  destruct (currentView s), (truthy (searchTerm s)), (truthy (selectedCategory s));
    cbn [state store effects fst snd];
    rewrite ?deref_new, ?deref_assign_new, ?deref_assign_sort; reflexivity.
Qed.

Lemma selected_filter (s : State) (l : list Transaction) :
  byCategory (selectedCategory s) (bySearch (searchTerm s) (byView (currentView s) l))
  = filter (selects s) l.
Proof.
  unfold byCategory, bySearch, byView, selects.
  assert (Hid : forall l : list Transaction, filter (fun _ => true) l = l).
  { intros l0; induction l0 as [|t l0 IH]; simpl; congruence. }
  assert (Hand : forall (p q : Transaction -> bool) (l : list Transaction),
             filter q (filter p l) = filter (fun t => p t && q t) l).
  { intros p q l0; induction l0 as [|t l0 IH]; simpl; [reflexivity|].
    destruct (p t); simpl; [destruct (q t)|]; now rewrite IH. }
  destruct (currentView s), (truthy (searchTerm s)), (truthy (selectedCategory s));
    rewrite ?Hand, ?Hid; try reflexivity;
    apply filter_ext; intros t; cbn;
    rewrite ?andb_true_r, ?andb_true_l, ?andb_assoc; reflexivity.
Qed.

Lemma derived_filter_sort (w : World) :
  derived w = sort newestFirst (filter (selects (state w)) (stored w)).
Proof. rewrite derived_pipeline. now rewrite selected_filter. Qed.

(** The call leaves the state cells and the effects as they are. *)
Lemma afterDerive_state (w : World) :
  state (afterDerive w) = state w /\ effects (afterDerive w) = effects w.
Proof.
  destruct w as [s st ef]. run_derive.
  destruct (currentView s), (truthy (searchTerm s)), (truthy (selectedCategory s));
    split; reflexivity.
Qed.

Ltac frame_store :=
  repeat (rewrite deref_assign_other by (rewrite ?length_app; simpl; lia));
  repeat (rewrite deref_old by (rewrite ?length_app; simpl; lia)).

(** What the call does to the stored list: nothing when some filter
    applies (the sort then works on the array that the filter made), and
    otherwise the array of the state itself is sorted. *)
Lemma stored_afterDerive (w : World) :
  wellFormed w ->
  stored (afterDerive w) =
  if filtering (state w) then stored w else sort newestFirst (stored w).
Proof.
  destruct w as [s st ef]. unfold wellFormed, filtering. cbn [state store].
  intros Hwf. run_derive.
  destruct (currentView s), (truthy (searchTerm s)), (truthy (selectedCategory s));
    cbn [state store effects fst snd orb];
    rewrite ?deref_assign_sort; try reflexivity; frame_store; reflexivity.
Qed.

Lemma afterDerive_wellFormed (w : World) : wellFormed w -> wellFormed (afterDerive w).
Proof.
  destruct w as [s st ef]. unfold wellFormed. cbn [state store].
  intros Hwf. run_derive.
  destruct (currentView s), (truthy (searchTerm s)), (truthy (selectedCategory s));
    cbn [state store effects fst snd];
    rewrite ?assign_length, ?length_app; simpl; lia.
Qed.



(* ------------------------------------------------------------------ *)
(** *** The filters *)

Lemma bySearch_In (term : jsstring) (l : list Transaction) (t : Transaction) :
  In t (bySearch term l) ->
  In t l /\ (term <> [] -> matchesSearch term t = true).
Proof.
  unfold bySearch. destruct term as [|c term]; cbn [truthy].
  - intros H. split; [exact H | congruence].
  - rewrite filter_In. intros [H1 H2]. auto.
Qed.

Lemma byCategory_In (c : jsstring) (l : list Transaction) (t : Transaction) :
  In t (byCategory c l) ->
  In t l /\ (c <> [] -> category t = c).
Proof.
  unfold byCategory. destruct c as [|x c]; cbn [truthy].
  - intros H. split; [exact H | congruence].
  - rewrite filter_In. intros [H1 H2]. split; [exact H1|].
    intros _. now apply jsstring_eqb_eq.
Qed.

Lemma matchesSearch_spec (term : jsstring) (t : Transaction) :
  matchesSearch term t = true <-> searchHit term t.
Proof.
  unfold matchesSearch, searchHit, containsIgnoringCase.
  now rewrite orb_true_iff, !includes_spec.
Qed.

Lemma Kept_filter (P : Transaction -> Prop) (p : Transaction -> bool)
    (l : list Transaction) :
  (forall t, p t = true <-> P t) -> Kept P l (filter p l).
Proof.
  intros Hp. induction l as [|t l IH]; cbn [filter]; [constructor|].
  destruct (p t) eqn:E.
  - apply Kept_keep; [now apply Hp | exact IH].
  - apply Kept_drop; [|exact IH]. intros H. apply Hp in H. congruence.
Qed.

Lemma Kept_all (P : Transaction -> Prop) (l : list Transaction) :
  (forall t, P t) -> Kept P l l.
Proof.
  intros HP. induction l as [|t l IH]; constructor; auto.
Qed.

(** Two filters one after the other keep what both keep. *)
Lemma Kept_and (P Q : Transaction -> Prop) (l l1 l2 : list Transaction) :
  Kept P l l1 -> Kept Q l1 l2 -> Kept (fun t => P t /\ Q t) l l2.
Proof.
  intros H1. revert l2.
  induction H1 as [|t l l1 Ht H1 IH|t l l1 Ht H1 IH]; intros l2 H2.
  - inversion H2; subst. constructor.
  - inversion H2; subst.
    + apply Kept_keep; [now split | now apply IH].
    + apply Kept_drop; [|now apply IH]. intros [_ Hq]. contradiction.
  - apply Kept_drop; [|now apply IH]. intros [Hp _]. contradiction.
Qed.

(** What the search step and the category step keep. *)
Lemma bySearch_Kept (term : jsstring) (l : list Transaction) :
  Kept (fun t => term = [] \/ searchHit term t) l (bySearch term l).
Proof.
  unfold bySearch. destruct term as [|x term]; cbn [truthy].
  - apply Kept_all. now left.
  - apply Kept_filter. intros t. rewrite matchesSearch_spec.
    split; [now right|]. intros [H|H]; [discriminate H | exact H].
Qed.

Lemma byCategory_Kept (c : jsstring) (l : list Transaction) :
  Kept (fun t => c = [] \/ category t = c) l (byCategory c l).
Proof.
  unfold byCategory. destruct c as [|x c]; cbn [truthy].
  - apply Kept_all. now left.
  - apply Kept_filter. intros t. unfold inCategory.
    rewrite jsstring_eqb_eq. split; [now right|].
    intros [H|H]; [discriminate H | exact H].
Qed.

(** C2: in the view of expenses the derived list is made from the stored
    expenses and holds only expenses, in the view of income it is made from
    the stored income and holds only income, and in the views of all
    transactions and of the dashboard the whole stored list goes on to the
    search and category filters. *)
Theorem derived_view_filter (w : World) :
  let rest (l : list Transaction) :=
    sort newestFirst
      (byCategory (selectedCategory (state w))
         (bySearch (searchTerm (state w)) l)) in
  match currentView (state w) with
  | view_expenses =>
      derived w = rest (filter isExpense (stored w)) /\
      Forall (fun t => type t = expense) (derived w)
  | view_income =>
      derived w = rest (filter isIncome (stored w)) /\
      Forall (fun t => type t = income) (derived w)
  | view_transactions | view_dashboard =>
      derived w = rest (stored w)
  end.
Proof.
  cbv zeta. rewrite derived_pipeline.
  destruct (currentView (state w)); cbn [byView]; try reflexivity;
    (split; [reflexivity|]);
    apply Forall_forall; intros t Ht;
    apply sort_In, byCategory_In in Ht; destruct Ht as [Ht _];
    apply bySearch_In in Ht; destruct Ht as [Ht _];
    apply filter_In in Ht; destruct Ht as [_ Ht];
    unfold isExpense, isIncome in Ht; destruct (type t);
    try reflexivity; discriminate.
Qed.

(** C3: the search step of the derived list, which stands between the view
    filter and the category filter, keeps exactly the transactions whose
    description or category contains the term when case is ignored, and
    removes nothing when the term is empty; so the term merc keeps a
    transaction described as Mercado. *)
Theorem search_filter_case_insensitive (w : World) :
  let term := searchTerm (state w) in
  let before := byView (currentView (state w)) (stored w) in
  derived w =
    sort newestFirst
      (byCategory (selectedCategory (state w)) (bySearch term before)) /\
  (term <> [] -> Kept (searchHit term) before (bySearch term before)) /\
  (term = [] -> bySearch term before = before) /\
  (toLowerCase (js "merc") = js "merc" ->
   toLowerCase (js "Mercado") = js "mercado" ->
   forall t : Transaction,
     description t = js "Mercado" ->
     searchHit (js "merc") t /\ bySearch (js "merc") [t] = [t]).
Proof.
  intros term before. split; [apply derived_pipeline|].
  split; [|split].
  - intros Hterm. unfold bySearch.
    destruct term as [|c term]; [congruence|]. cbn [truthy].
    apply Kept_filter. intros t. apply matchesSearch_spec.
  - intros ->. reflexivity.
  - intros Hterm Htext t Hdesc.
    assert (Hhit : searchHit (js "merc") t).
    { left. unfold containsIgnoringCase. rewrite Hdesc, Hterm, Htext.
      exists [], (js "ado"). reflexivity. }
    split; [exact Hhit|].
    apply matchesSearch_spec in Hhit.
    unfold bySearch. cbn [js truthy filter].
    change (filter (matchesSearch (js "merc")) [t] = [t]).
    cbn [filter]. now rewrite Hhit.
Qed.

(** C4, as it holds: when every transaction of the derived list has a valid
    creation date, a transaction with the greater creation time stands
    before one with the smaller, and the transactions of one creation time
    stand in the order in which the stored list has them.  The condition
    stands before both parts: with an invalid date the comparison is not
    consistent, and then the order is the engine's own. *)
Theorem derived_newest_first_stable (w : World) :
  Forall validDate (derived w) ->
  newestFirstOrder (derived w) /\
  forall T : Z,
    filter (hasTime T) (derived w)
    = filter (hasTime T) (filter (selects (state w)) (stored w)).
Proof.
  intros Hvalid. rewrite derived_filter_sort in *.
  set (l := filter (selects (state w)) (stored w)) in *.
  split.
  - assert (Hl : Forall validDate l).
    { apply Permutation_Forall with (sort newestFirst l);
        [apply sort_perm | exact Hvalid]. }
    pose proof (stableSort_StronglySorted newestFirst_antisym newestFirst_trans Hl)
      as Hs.
    rewrite sort_newestFirst_valid by exact Hl.
    intros i j a b ta tb Hi Hj Ha Hb Hgt.
    destruct (Nat.lt_trichotomy i j) as [Hlt | [-> | Hlt]]; [exact Hlt | |].
    + rewrite Hi in Hj. injection Hj as ->. rewrite Ha in Hb.
      injection Hb as ->. lia.
    + pose proof (StronglySorted_nth Hs Hlt Hj Hi) as Hba.
      unfold mayPrecede in Hba.
      rewrite (newestFirst_valid b a Hb Ha) in Hba. lia.
  - intros T. rewrite sort_newestFirst_valid.
    + apply stableSort_stable. apply newestFirst_same_time.
    + apply Permutation_Forall with (sort newestFirst l);
        [apply sort_perm | exact Hvalid].
Qed.

(* ------------------------------------------------------------------ *)
(** *** The list on the page *)

Lemma In_firstn (A : Type) (n : nat) (l : list A) (x : A) :
  In x (firstn n l) -> In x l.
Proof.
  intros H. rewrite <- (firstn_skipn n l). apply in_or_app. now left.
Qed.

Lemma renderTransactionsList_rows (w : World) :
  rows (fst (renderTransactionsList w)) =
  (if isDashboard (currentView (state w)) then firstn 5 (derived w) else derived w)
  /\ found (fst (renderTransactionsList w)) = List.length (derived w).
Proof.
  unfold renderTransactionsList, derived, Array_slice0.
  unfold bind, getState, Array_read, Array_new, ret.
  destruct (getFilteredTransactions w) as [r w'].
  cbn [fst snd state store].
  destruct (deref (store w') r) as [|t l] eqn:E; cbn [List.length Nat.eqb].
  - cbn [fst rows found List.length]. split; [|reflexivity].
    now destruct (isDashboard (currentView (state w))).
  - cbn [fst snd rows found state store]. rewrite deref_new, E.
    split; [|reflexivity].
    now destruct (isDashboard (currentView (state w))).
Qed.

(** C5: on the dashboard the page shows the first five transactions of the
    derived list, that is the smaller of its length and five, and on every
    other view it shows the whole derived list. *)
Theorem dashboard_shows_first_five (w : World) :
  let shown := rows (fst (renderTransactionsList w)) in
  match currentView (state w) with
  | view_dashboard =>
      shown = firstn 5 (derived w) /\
      List.length shown = Nat.min (List.length (derived w)) 5
  | _ =>
      shown = derived w /\ List.length shown = List.length (derived w)
  end.
Proof.
  cbv zeta. destruct (renderTransactionsList_rows w) as [-> _].
  destruct (currentView (state w)); cbn [isDashboard]; split;
    try reflexivity.
  rewrite length_firstn. apply Nat.min_comm.
Qed.

(** C10: on the dashboard no filter control is rendered, and yet the search
    term and the selected category filter the rows.  The filtered list is
    the stored list with exactly the transactions that match the term, if
    there is one, and are of the selected category, if there is one; the
    rows are the first five of that list after the sort; so every row
    matches the term and is of the category. *)
Theorem dashboard_rows_are_filtered (w : World) :
  currentView (state w) = view_dashboard ->
  let term := searchTerm (state w) in
  let c := selectedCategory (state w) in
  let filtered := byCategory c (bySearch term (stored w)) in
  fst (renderFilters w) = None /\
  Kept (fun t => (term = [] \/ searchHit term t) /\ (c = [] \/ category t = c))
    (stored w) filtered /\
  rows (fst (renderTransactionsList w)) = firstn 5 (sort newestFirst filtered) /\
  forall t : Transaction,
    In t (rows (fst (renderTransactionsList w))) ->
    (term <> [] -> searchHit term t) /\ (c <> [] -> category t = c).
Proof.
  intros Hview. cbv zeta.
  assert (Hrows : rows (fst (renderTransactionsList w)) =
                  firstn 5
                    (sort newestFirst
                       (byCategory (selectedCategory (state w))
                          (bySearch (searchTerm (state w)) (stored w))))).
  { destruct (renderTransactionsList_rows w) as [-> _].
    rewrite derived_pipeline, Hview. reflexivity. }
  split; [|split; [|split; [exact Hrows|]]].
  - unfold renderFilters, bind, getState. now rewrite Hview.
  - apply Kept_and with (bySearch (searchTerm (state w)) (stored w)).
    + apply bySearch_Kept.
    + apply byCategory_Kept.
  - intros t Ht. rewrite Hrows in Ht.
    apply In_firstn, sort_In, byCategory_In in Ht. destruct Ht as [Ht Hc].
    apply bySearch_In in Ht. destruct Ht as [_ Hs].
    split; [|exact Hc]. intros H. now apply matchesSearch_spec, Hs.
Qed.

(* ------------------------------------------------------------------ *)
(** *** Loading and deleting *)

(** Running the steps of the monad on a world given by its components. *)
Ltac run_world :=
  lazy beta iota zeta delta
    [setTransactions setSummary setLoading setState emit Array_new bind ret
     fst snd state store effects transactions summary loading currentView
     searchTerm selectedCategory showBalance sidebarOpen].

Ltac run_load :=
  unfold afterLoad, stored, loadData, loadData_request, loadData_settled,
    fetchTransactions;
  run_world.

(** The references stay in the store: at the start, after a load and after
    a delete. *)
Lemma initialWorld_wellFormed : wellFormed initialWorld.
Proof. unfold wellFormed, initialWorld. cbn. lia. Qed.

Lemma afterLoad_wellFormed (userId : jsstring) (response : Settled ResponseData)
    (w : World) :
  wellFormed (afterLoad userId response w).
Proof.
  destruct w as [[] st ef]. unfold wellFormed.
  destruct response as [data|reason]; run_load;
    rewrite length_app; cbn [List.length]; lia.
Qed.

(** C8: when the request of [loadData] is rejected the list becomes empty,
    the summary null and the loading flag false; the only effects are the
    request and one diagnostic on the console, so no alert is raised; the
    view, the search term and the selected category stay. *)
Theorem loadData_failure_swallowed (userId reason : jsstring) (w : World) :
  let w' := afterLoad userId (rejected reason) w in
  stored w' = [] /\
  summary (state w') = None /\
  loading (state w') = false /\
  effects w' =
    effects w ++ [axios_get (API_URL ++ js "/transactions/" ++ userId);
                  console_error (js "Error loading data:")] /\
  filter isAlert (effects w') = filter isAlert (effects w) /\
  currentView (state w') = currentView (state w) /\
  searchTerm (state w') = searchTerm (state w) /\
  selectedCategory (state w') = selectedCategory (state w).
Proof.
  cbv zeta. destruct w as [[] st ef]. run_load.
  rewrite deref_new, <- app_assoc. cbn [app].
  repeat split; try reflexivity.
  rewrite filter_app. cbn [filter isAlert]. apply app_nil_r.
Qed.

(** C7, as it holds: a confirmed delete whose request is rejected leaves
    the state and the store as they were and raises the alert of the error,
    without any reload; a delete that is not confirmed does nothing; and
    after a delete that succeeded the list is the one that the reload sets,
    the refetched list or the empty list if the refetch is rejected, never
    a list that the handler edited itself. *)
Theorem delete_failure_leaves_data (userId transactionId : jsstring)
    (isConfirmed : bool) (deleted : Settled unit)
    (reloaded : Settled ResponseData) (w : World) :
  let w' := afterRemove userId transactionId isConfirmed deleted reloaded w in
  let asked :=
    window_confirm (js "Tem certeza que deseja apagar esta transação?") in
  let sent :=
    axios_delete
      (API_URL ++ js "/transactions/" ++ userId ++ js "/" ++ transactionId) in
  match isConfirmed, deleted with
  | false, _ =>
      state w' = state w /\ store w' = store w /\
      effects w' = effects w ++ [asked]
  | true, rejected _ =>
      state w' = state w /\ store w' = store w /\
      effects w' =
        effects w ++ [asked; sent;
                      console_error (js "Erro ao excluir transação:");
                      window_alert (js "Erro ao excluir transação.")]
  | true, fulfilled _ =>
      stored w' =
        match reloaded with
        | fulfilled data => data_transactions data
        | rejected _ => []
        end /\
      filter isRequest (effects w') =
        filter isRequest (effects w) ++
          [sent; axios_get (API_URL ++ js "/transactions/" ++ userId)]
  end.
Proof.
  cbv zeta. destruct w as [[] st ef].
  unfold afterRemove, stored, handleRemoveTransaction, deleteTransaction,
    loadData_request, loadData_settled, fetchTransactions.
  destruct isConfirmed; [destruct deleted as [v|reason]|].
  - destruct reloaded as [data|reason]; run_world; rewrite deref_new;
      (split; [reflexivity|]);
      rewrite !filter_app; cbn [filter isRequest];
      rewrite <- !app_assoc, ?app_nil_r; reflexivity.
  - run_world. repeat split. now rewrite <- !app_assoc.
  - run_world. repeat split.
Qed.

(* ------------------------------------------------------------------ *)
(** *** The user identifier and the gate *)

Lemma getUserIdFromUrl_truthy (params : URLSearchParams) :
  truthy (getUserIdFromUrl params) = true.
Proof.
  unfold getUserIdFromUrl.
  destruct (URLSearchParams_get params (js "userId")) as [[|c v]|];
    reflexivity.
Qed.

(** C9, as it holds: the resolved identifier is the parameter [userId] when
    the URL has it with a value that is not empty, and the placeholder
    default_user otherwise, also for a parameter that is there and empty; it
    is therefore never empty, the view of denied access, which the render
    keeps for an empty identifier, is never rendered, and mounting always
    sends the request for the resolved identifier. *)
Theorem getUserIdFromUrl_never_empty (params : URLSearchParams)
    (response : Settled ResponseData) (w : World) :
  let userId := getUserIdFromUrl params in
  match URLSearchParams_get params (js "userId") with
  | Some (c :: v) => userId = c :: v
  | Some [] | None => userId = js "default_user"
  end /\
  userId <> [] /\
  fst (render userId w) <> AccessDenied /\
  fst (render [] w) = (if loading (state w) then LoadingScreen else AccessDenied) /\
  In (axios_get (API_URL ++ js "/transactions/" ++ userId))
     (effects (snd (mount params response initialWorld))).
Proof.
  cbv zeta. pose proof (getUserIdFromUrl_truthy params) as Ht.
  split; [|split; [|split; [|split]]].
  - unfold getUserIdFromUrl.
    destruct (URLSearchParams_get params (js "userId")) as [[|c v]|];
      reflexivity.
  - intros H. rewrite H in Ht. discriminate.
  - unfold render, bind, getState, ret. rewrite Ht. cbn [negb].
    destruct (loading (state w)); [discriminate|].
    destruct (renderFilters w) as [filters w1].
    destruct (renderTransactionsList w1) as [list w2].
    discriminate.
  - unfold render, bind, getState, ret. cbn [truthy negb].
    now destruct (loading (state w)).
  - unfold mount, initialWorld.
    destruct response as [data|reason]; run_load; cbn [app In]; auto.
Qed.

End Properties.

(* ================================================================== *)
(** ** Further properties of the component *)

Section MoreProperties.
Context {host : Host}.

(* ------------------------------------------------------------------ *)
(** *** The derived list *)

(** X1: the category step of the derived list, the last before the sort,
    keeps exactly the transactions whose category is the selected one,
    compared as strings, and keeps all of them when no category is
    selected. *)
Theorem category_filter_exact (w : World) :
  let c := selectedCategory (state w) in
  let before :=
    bySearch (searchTerm (state w)) (byView (currentView (state w)) (stored w)) in
  derived w = sort newestFirst (byCategory c before) /\
  Kept (fun t => c = [] \/ category t = c) before (byCategory c before).
Proof.
  cbv zeta. split; [apply derived_pipeline|].
  unfold byCategory. destruct (selectedCategory (state w)) as [|x c] eqn:E;
    cbn [truthy].
  - apply Kept_all. now left.
  - apply Kept_filter. intros t. unfold inCategory.
    rewrite jsstring_eqb_eq. split; [now right|].
    intros [H|H]; [discriminate H | exact H].
Qed.

(** X2: the derived list is a rearrangement of the stored transactions that
    pass the three filters: the sort loses none, repeats none and adds
    none. *)
Theorem derived_rearranges_selected (w : World) :
  Permutation (derived w) (filter (selects (state w)) (stored w)) /\
  (forall t : Transaction,
     In t (derived w) <-> In t (stored w) /\ selects (state w) t = true) /\
  (List.length (derived w) <= List.length (stored w))%nat.
Proof.
  rewrite derived_filter_sort. split; [apply sort_perm|]. split.
  - intros t. rewrite sort_In. apply filter_In.
  - rewrite sort_length. apply filter_length_le.
Qed.

Lemma filter_split_by_type (q : Transaction -> bool) (l : list Transaction) :
  Permutation
    (filter (fun t => isExpense t && q t) l ++ filter (fun t => isIncome t && q t) l)
    (filter q l).
Proof.
  induction l as [|t l IH]; cbn [filter app]; [constructor|].
  unfold isExpense, isIncome at 1. destruct (type t); cbn [TransactionType_eqb andb];
    destruct (q t); try exact IH.
  - apply Permutation_sym, Permutation_cons_app, Permutation_sym, IH.
  - cbn [app]. now apply perm_skip.
Qed.

(** X3: for the same stored list, search term and category, the list of the
    view of expenses and the list of the view of income together are a
    rearrangement of the list of the view of all transactions. *)
Theorem expenses_and_income_make_all (w : World) :
  Permutation
    (derived (snd (setCurrentView view_expenses w)) ++
     derived (snd (setCurrentView view_income w)))
    (derived (snd (setCurrentView view_transactions w))).
Proof.
  rewrite !derived_filter_sort.
  destruct w as [[] st ef]. unfold stored, selects, setCurrentView, setState.
  cbn [snd state store transactions currentView searchTerm selectedCategory andb].
  set (l := deref st _).
  eapply perm_trans; [apply Permutation_app; apply sort_perm|].
  eapply perm_trans; [|symmetry; apply sort_perm].
  set (q := fun t : Transaction =>
              (if truthy searchTerm0 then matchesSearch searchTerm0 t else true)
              && (if truthy selectedCategory0
                  then inCategory selectedCategory0 t else true)).
  eapply perm_trans; [|apply (filter_split_by_type q l)].
  apply Permutation_app; apply Permutation_refl';
    apply filter_ext; intros t; unfold q; now rewrite andb_assoc.
Qed.

Ltac run_call :=
  unfold derived, afterDerive, stored, getFilteredTransactions, Array_filter,
    Array_sort, Array_read, Array_write, Array_new, getState, bind, ret;
  cbn [state store effects fst snd].

Lemma afterDerive_store (w : World) :
  wellFormed w ->
  (List.length (store w) <= List.length (store (afterDerive w)))%nat /\
  forall r : ref,
    (r < List.length (store w))%nat -> r <> transactions (state w) ->
    deref (store (afterDerive w)) r = deref (store w) r.
Proof.
  destruct w as [s st ef]. unfold wellFormed. cbn [state store].
  intros Hwf. run_call.
  destruct (currentView s), (truthy (searchTerm s)), (truthy (selectedCategory s));
    cbn [state store effects fst snd];
    (split; [rewrite ?assign_length, ?length_app; simpl; lia|]);
    intros r Hr Hne;
    repeat (rewrite deref_assign_other by (rewrite ?length_app; simpl; lia));
    repeat (rewrite deref_old by (rewrite ?length_app; simpl; lia));
    reflexivity.
Qed.

(** X5: a call of [getFilteredTransactions] changes no state cell and has
    no effect on the environment; the stored list keeps its elements, and
    keeps their order too whenever some filter applies; and every other
    array that the store held stays as it was. *)
Theorem getFilteredTransactions_frame (w : World) :
  wellFormed w ->
  state (afterDerive w) = state w /\
  effects (afterDerive w) = effects w /\
  Permutation (stored (afterDerive w)) (stored w) /\
  (filtering (state w) = true -> stored (afterDerive w) = stored w) /\
  (forall r : ref,
     (r < List.length (store w))%nat -> r <> transactions (state w) ->
     deref (store (afterDerive w)) r = deref (store w) r).
Proof.
  intros Hwf. destruct (afterDerive_state w) as [Hs He].
  split; [exact Hs|]. split; [exact He|].
  rewrite (stored_afterDerive Hwf). split; [|split].
  - destruct (filtering (state w)); [apply Permutation_refl | apply sort_perm].
  - now intros ->.
  - apply (afterDerive_store Hwf).
Qed.

Lemma getCategories_In (w : World) (c : jsstring) :
  In c (fst (getCategories w)) <->
  exists t, In t (stored w) /\ category t = c.
Proof.
  unfold getCategories, bind, getState, Array_read, ret. cbn [fst].
  fold (stored w). rewrite sort_In, Set_from_In, in_map_iff.
  split; intros [t [H1 H2]]; exists t; auto.
Qed.

(** X6: a selected category that is none of the categories of
    [getCategories] leaves no transaction in the derived list; a selected
    category that is one of them, with no search term in the view of all
    transactions or of the dashboard, leaves at least one. *)
Theorem category_selection_and_options (w : World) :
  let c := selectedCategory (state w) in
  (c <> [] -> ~ In c (fst (getCategories w)) -> derived w = []) /\
  (In c (fst (getCategories w)) ->
   searchTerm (state w) = [] ->
   currentView (state w) = view_transactions \/
   currentView (state w) = view_dashboard ->
   exists t, In t (derived w) /\ category t = c).
Proof.
  cbv zeta. split.
  - intros Hc Hnot. destruct (derived w) as [|t l] eqn:E; [reflexivity|exfalso].
    assert (Ht : In t (derived w)) by (rewrite E; now left).
    rewrite derived_pipeline in Ht.
    apply sort_In, byCategory_In in Ht. destruct Ht as [Ht Hcat].
    apply bySearch_In in Ht. destruct Ht as [Ht _].
    apply Hnot, getCategories_In. exists t. split; [|now apply Hcat].
    destruct (currentView (state w)); cbn [byView] in Ht;
      try exact Ht; now apply filter_In in Ht.
  - intros Hin Hterm Hview. apply getCategories_In in Hin.
    destruct Hin as [t [Ht Hcat]]. exists t. split; [|exact Hcat].
    rewrite derived_pipeline, Hterm. apply sort_In.
    unfold bySearch, byCategory. cbn [truthy].
    assert (Hv : byView (currentView (state w)) (stored w) = stored w)
      by (destruct Hview as [-> | ->]; reflexivity).
    rewrite Hv.
    destruct (truthy (selectedCategory (state w))); [|exact Ht].
    apply filter_In. split; [exact Ht|].
    unfold inCategory. now apply jsstring_eqb_eq.
Qed.

Lemma StronglySorted_app_In (A : Type) (R : A -> A -> Prop) (l1 l2 : list A)
    (a b : A) :
  StronglySorted R (l1 ++ l2) -> In a l1 -> In b l2 -> R a b.
Proof.
  induction l1 as [|x l1 IH]; cbn [app]; intros Hs Ha Hb; [destruct Ha|].
  inversion_clear Hs as [|? ? Hs' Hx]. destruct Ha as [->|Ha].
  - rewrite Forall_forall in Hx. apply Hx. apply in_or_app. now right.
  - now apply IH.
Qed.

(** X18: when the dates of the derived list are valid, the rows of the
    dashboard are the newest transactions: no transaction that is left out
    has a later creation time than one that is shown. *)
Theorem dashboard_rows_are_newest (w : World) (shown hidden : Transaction)
    (ts th : Z) :
  Forall validDate (derived w) ->
  currentView (state w) = view_dashboard ->
  In shown (rows (fst (renderTransactionsList w))) ->
  In hidden (skipn 5 (derived w)) ->
  timeOf shown = Some ts -> timeOf hidden = Some th ->
  th <= ts.
Proof.
  intros Hvalid Hview Hshown Hhidden Hts Hth.
  destruct (renderTransactionsList_rows w) as [Hrows _].
  rewrite Hrows, Hview in Hshown. cbn [isDashboard] in Hshown.
  rewrite derived_filter_sort in *.
  set (l := filter (selects (state w)) (stored w)) in *.
  assert (Hl : Forall validDate l).
  { apply Permutation_Forall with (sort newestFirst l);
      [apply sort_perm | exact Hvalid]. }
  pose proof (stableSort_StronglySorted newestFirst_antisym newestFirst_trans Hl)
    as Hs.
  rewrite <- (sort_newestFirst_valid Hl) in Hs.
  rewrite <- (firstn_skipn 5 (sort newestFirst l)) in Hs.
  pose proof (StronglySorted_app_In _ _ _ _ Hs Hshown Hhidden) as Hle.
  unfold mayPrecede in Hle.
  rewrite (newestFirst_valid shown hidden Hts Hth) in Hle. lia.
Qed.

Lemma strictly_sorted_unique (l1 l2 : list jsstring) :
  StronglySorted (fun a b => jsstring_ltb a b = true) l1 ->
  StronglySorted (fun a b => jsstring_ltb a b = true) l2 ->
  (forall x, In x l1 <-> In x l2) -> l1 = l2.
Proof.
  intros H1. revert l2.
  induction H1 as [|x l1 Hs1 IH Hx]; intros l2 H2 Hin.
  - destruct l2 as [|y l2]; [reflexivity|]. exfalso.
    apply (proj2 (Hin y)). now left.
  - destruct H2 as [|y l2 Hs2 Hy].
    + exfalso. apply (proj1 (Hin x)). now left.
    + rewrite Forall_forall in Hx, Hy.
      assert (Hxy : x = y).
      { destruct (proj1 (Hin x) (or_introl eq_refl)) as [E|E]; [now symmetry|].
        destruct (proj2 (Hin y) (or_introl eq_refl)) as [E'|E']; [exact E'|].
        pose proof (jsstring_ltb_asym _ _ (Hx y E')) as C.
        rewrite (Hy x E) in C. discriminate C. }
      subst y. f_equal. apply IH; [exact Hs2|].
      intros z. split; intros Hz.
      * destruct (proj1 (Hin z) (or_intror Hz)) as [E|E]; [|exact E].
        subst z. pose proof (Hx x Hz) as C.
        now rewrite jsstring_ltb_irrefl in C.
      * destruct (proj2 (Hin z) (or_intror Hz)) as [E|E]; [|exact E].
        subst z. pose proof (Hy x Hz) as C.
        now rewrite jsstring_ltb_irrefl in C.
Qed.

Lemma getCategories_strictly_sorted (w : World) :
  StronglySorted (fun a b => jsstring_ltb a b = true) (fst (getCategories w)).
Proof.
  unfold getCategories, bind, getState, Array_read, ret. cbn [fst].
  apply StronglySorted_strict.
  - rewrite sort_defaultCompare.
    apply (stableSort_StronglySorted defaultCompare_antisym defaultCompare_trans).
    apply Forall_forall. auto.
  - eapply Permutation_NoDup; [symmetry; apply sort_perm|].
    apply Set_from_NoDup.
Qed.

(** X19: the categories of [getCategories] do not depend on the order of
    the stored list: two worlds whose stored lists are rearrangements of
    each other have the same categories, so the sort in place of
    [getFilteredTransactions] does not change the options of the select. *)
Theorem getCategories_ignores_order (w w' : World) :
  Permutation (stored w) (stored w') ->
  fst (getCategories w) = fst (getCategories w').
Proof.
  intros Hperm. apply strictly_sorted_unique;
    try apply getCategories_strictly_sorted.
  intros c. rewrite !getCategories_In.
  split; intros [t [Ht Hc]]; exists t; split; auto;
    [apply (Permutation_in _ Hperm) | apply (Permutation_in _ (Permutation_sym Hperm))];
    exact Ht.
Qed.

(* ------------------------------------------------------------------ *)
(** *** Loading, deleting and the first page *)

Ltac run_steps :=
  lazy beta iota zeta delta
    [setTransactions setSummary setLoading setCurrentView setSearchTerm
     setSelectedCategory setSidebarOpen setShowBalance onSidebarClick
     setState emit getState Array_new bind ret
     fst snd state store effects transactions summary loading currentView
     searchTerm selectedCategory showBalance sidebarOpen].

(** X7: when the request of [loadData] is fulfilled the stored list is the
    list of the response, in a new array, and the summary is the summary of
    the response; the loading flag is false, the one effect is the request,
    the arrays that the store held and the other state cells stay. *)
Theorem loadData_success (userId : jsstring) (data : ResponseData) (w : World) :
  let w' := afterLoad userId (fulfilled data) w in
  stored w' = data_transactions data /\
  summary (state w') = Some (data_summary data) /\
  loading (state w') = false /\
  effects w' =
    effects w ++ [axios_get (API_URL ++ js "/transactions/" ++ userId)] /\
  store w' = store w ++ [data_transactions data] /\
  currentView (state w') = currentView (state w) /\
  searchTerm (state w') = searchTerm (state w) /\
  selectedCategory (state w') = selectedCategory (state w) /\
  showBalance (state w') = showBalance (state w).
Proof.
  cbv zeta. destruct w as [[] st ef].
  unfold afterLoad, stored, loadData, loadData_request, loadData_settled,
    fetchTransactions.
  run_steps. rewrite deref_new. repeat split.
Qed.

(** X8: after a delete that succeeded the alert of success is raised while
    the reload is pending, and it is the only alert: when the reload is
    rejected the user is told of the success of the delete and sees an empty
    page, and the failure goes to the console alone. *)
Theorem delete_success_alert_precedes_reload (userId transactionId : jsstring)
    (v : unit) (reloaded : Settled ResponseData) (w : World) :
  let w' := afterRemove userId transactionId true (fulfilled v) reloaded w in
  effects w' =
    effects w ++
      [window_confirm (js "Tem certeza que deseja apagar esta transação?");
       axios_delete
         (API_URL ++ js "/transactions/" ++ userId ++ js "/" ++ transactionId);
       axios_get (API_URL ++ js "/transactions/" ++ userId);
       window_alert (js "Transação excluída com sucesso!")] ++
      match reloaded with
      | fulfilled _ => []
      | rejected _ => [console_error (js "Error loading data:")]
      end /\
  summary (state w') =
    match reloaded with
    | fulfilled data => Some (data_summary data)
    | rejected _ => None
    end /\
  loading (state w') = false.
Proof.
  cbv zeta. destruct w as [[] st ef].
  unfold afterRemove, handleRemoveTransaction, deleteTransaction,
    loadData_request, loadData_settled, fetchTransactions.
  destruct reloaded as [data|reason]; run_steps;
    rewrite <- !app_assoc; cbn [app]; repeat split.
Qed.

Lemma renderFilters_world (w : World) : snd (renderFilters w) = w.
Proof.
  unfold renderFilters, getCategories, bind, getState, Array_read, ret.
  now destruct (currentView (state w)).
Qed.

Lemma renderTransactionsList_eq (w : World) :
  fst (renderTransactionsList w) =
  {| found := List.length (derived w);
     rows := if isDashboard (currentView (state w))
             then firstn 5 (derived w) else derived w;
     seeAll := isDashboard (currentView (state w)) &&
               Nat.ltb 5 (List.length (derived w)) |}.
Proof.
  unfold renderTransactionsList, derived, Array_slice0.
  unfold bind, getState, Array_read, Array_new, ret.
  destruct (getFilteredTransactions w) as [r w'].
  cbn [fst snd state store].
  destruct (deref (store w') r) as [|t l] eqn:E; cbn [List.length Nat.eqb].
  - cbn [fst]. now destruct (isDashboard (currentView (state w))).
  - cbn [fst snd state store]. rewrite deref_new, E.
    now destruct (isDashboard (currentView (state w))).
Qed.

Lemma renderTransactionsList_world (w : World) :
  state (snd (renderTransactionsList w)) = state w /\
  effects (snd (renderTransactionsList w)) = effects w /\
  exists extra : Store,
    store (snd (renderTransactionsList w)) = store (afterDerive w) ++ extra.
Proof.
  pose proof (afterDerive_state w) as [Hs He].
  unfold renderTransactionsList, afterDerive, Array_slice0 in *.
  unfold bind, getState, Array_read, Array_new, ret in *.
  destruct (getFilteredTransactions w) as [r w']. cbn [fst snd] in *.
  destruct (Nat.eqb (List.length (deref (store w') r)) 0);
    cbn [fst snd state store effects].
  - repeat split; auto. exists []. now rewrite app_nil_r.
  - repeat split; auto. eexists. reflexivity.
Qed.

(** Rendering changes no state cell and has no effect; the stored list
    keeps its elements. *)
Lemma render_world (userId : jsstring) (w : World) :
  wellFormed w ->
  state (snd (render userId w)) = state w /\
  effects (snd (render userId w)) = effects w /\
  wellFormed (snd (render userId w)) /\
  Permutation (stored (snd (render userId w))) (stored w).
Proof.
  intros Hwf. unfold render, bind, getState, ret.
  destruct (loading (state w)); [cbn [snd]; auto using Permutation_refl|].
  destruct (negb (truthy userId)); [cbn [snd]; auto using Permutation_refl|].
  pose proof (renderFilters_world w) as Hf.
  destruct (renderFilters w) as [filters w1]. cbn [snd] in Hf. subst w1.
  pose proof (renderTransactionsList_world w) as (Hs & He & extra & Hst).
  destruct (renderTransactionsList w) as [list w2]. cbn [snd] in *.
  pose proof (afterDerive_wellFormed Hwf) as Hwf'.
  pose proof (afterDerive_state w) as [Hs' _].
  assert (Hstored : stored w2 = stored (afterDerive w)).
  { unfold stored, deref. rewrite Hst, Hs, Hs'.
    apply app_nth1. unfold wellFormed in Hwf'. now rewrite Hs' in Hwf'. }
  repeat split; auto.
  - unfold wellFormed in *. rewrite Hst, Hs, length_app. rewrite Hs' in Hwf'. lia.
  - rewrite Hstored, (stored_afterDerive Hwf).
    destruct (filtering (state w)); [apply Permutation_refl | apply sort_perm].
Qed.

(** X9: the first page after a load that succeeded is the dashboard with no
    filter controls, the count of all the transactions of the response, and
    as rows the first five of them in the order of the sort. *)
Theorem first_page_after_load (params : URLSearchParams) (data : ResponseData) :
  fst (render (getUserIdFromUrl params)
         (snd (mount params (fulfilled data) initialWorld))) =
  Dashboard None
    {| found := List.length (data_transactions data);
       rows := firstn 5 (sort newestFirst (data_transactions data));
       seeAll := Nat.ltb 5 (List.length (data_transactions data)) |}.
Proof.
  set (w := snd (mount params (fulfilled data) initialWorld)).
  assert (Hstate : loading (state w) = false /\
                   currentView (state w) = view_dashboard /\
                   searchTerm (state w) = [] /\ selectedCategory (state w) = [] /\
                   stored w = data_transactions data).
  { unfold w, mount, initialWorld, stored, loadData, loadData_request,
      loadData_settled, fetchTransactions.
    run_steps. repeat split. }
  destruct Hstate as (Hl & Hv & Ht & Hc & Hst).
  unfold render, bind, getState, ret.
  rewrite Hl, getUserIdFromUrl_truthy. cbn [negb].
  pose proof (renderFilters_world w) as Hf.
  assert (Hnone : fst (renderFilters w) = None).
  { unfold renderFilters, bind, getState. now rewrite Hv. }
  destruct (renderFilters w) as [filters w1]. cbn [fst snd] in Hf, Hnone.
  subst w1 filters.
  pose proof (renderTransactionsList_eq w) as Hlist.
  destruct (renderTransactionsList w) as [list w2]. cbn [fst] in Hlist.
  rewrite Hlist, derived_pipeline, Hv, Ht, Hc, Hst.
  cbn [isDashboard byView bySearch byCategory truthy andb].
  now rewrite sort_length.
Qed.

(** X10: the first page after a load that failed is the dashboard with no
    summary cards, no charts, no filter controls and no rows. *)
Theorem first_page_after_failed_load (intl : Intl) (params : URLSearchParams)
    (reason : jsstring) :
  let w := snd (mount params (rejected reason) initialWorld) in
  fst (render (getUserIdFromUrl params) w) =
    Dashboard None {| found := 0; rows := []; seeAll := false |} /\
  fst (renderSummaryCards w) = None /\
  fst (renderChartsSection w) = None.
Proof.
  cbv zeta. set (w := snd (mount params (rejected reason) initialWorld)).
  assert (Hstate : loading (state w) = false /\
                   currentView (state w) = view_dashboard /\
                   searchTerm (state w) = [] /\ selectedCategory (state w) = [] /\
                   stored w = [] /\ summary (state w) = None).
  { unfold w, mount, initialWorld, stored, loadData, loadData_request,
      loadData_settled, fetchTransactions.
    run_steps. repeat split. }
  destruct Hstate as (Hl & Hv & Ht & Hc & Hst & Hsum).
  split; [|split].
  - unfold render, bind, getState, ret.
    rewrite Hl, getUserIdFromUrl_truthy. cbn [negb].
    pose proof (renderFilters_world w) as Hf.
    assert (Hnone : fst (renderFilters w) = None).
    { unfold renderFilters, bind, getState. now rewrite Hv. }
    destruct (renderFilters w) as [filters w1]. cbn [fst snd] in Hf, Hnone.
    subst w1 filters.
    pose proof (renderTransactionsList_eq w) as Hlist.
    destruct (renderTransactionsList w) as [list w2]. cbn [fst] in Hlist.
    rewrite Hlist, derived_pipeline, Hv, Ht, Hc, Hst.
    cbn [isDashboard byView bySearch byCategory truthy andb].
    rewrite sort_nil. reflexivity.
  - unfold renderSummaryCards, bind, getState, ret.
    destruct (summary (state w)); [discriminate Hsum | reflexivity].
  - unfold renderChartsSection, renderCharts, bind, getState, ret.
    rewrite Hv. cbn [isDashboard].
    destruct (summary (state w)); [discriminate Hsum | reflexivity].
Qed.

(** X11: the button to see all transactions is on the page exactly when
    fewer rows are shown than transactions were found. *)
Theorem seeAll_iff_rows_cut (w : World) :
  seeAll (fst (renderTransactionsList w)) = true <->
  (List.length (rows (fst (renderTransactionsList w)))
   < found (fst (renderTransactionsList w)))%nat.
Proof.
  rewrite renderTransactionsList_eq. cbn [seeAll rows found].
  destruct (isDashboard (currentView (state w))); cbn [andb].
  - rewrite Nat.ltb_lt, length_firstn. lia.
  - split; [discriminate | lia].
Qed.

(* ------------------------------------------------------------------ *)
(** *** The controls *)

(** X12: no control of the page sends a request, raises an alert or touches
    an array, and none changes the reference to the list, the summary or the
    loading flag; the search term changes only through the search input and
    the selected category only through the select. *)
Theorem onEvent_frame (e : UiEvent) (w : World) :
  let w' := snd (onEvent e w) in
  store w' = store w /\
  effects w' = effects w /\
  transactions (state w') = transactions (state w) /\
  summary (state w') = summary (state w) /\
  loading (state w') = loading (state w) /\
  (searchTerm (state w') <> searchTerm (state w) ->
   exists text, e = change_search text) /\
  (selectedCategory (state w') <> selectedCategory (state w) ->
   exists option, e = change_category option).
Proof.
  cbv zeta. destruct w as [[] st ef].
  destruct e; unfold onEvent; run_steps; repeat split;
    try (intros H; now contradiction H); eauto.
Qed.

(** X13: on the dashboard none of the controls that the page offers changes
    the search term or the selected category, so a term or category chosen
    in another view stays in force there. *)
Theorem dashboard_offers_no_filter_control (w : World) (e : UiEvent) :
  offered w e = true ->
  currentView (state w) = view_dashboard ->
  searchTerm (state (snd (onEvent e w))) = searchTerm (state w) /\
  selectedCategory (state (snd (onEvent e w))) = selectedCategory (state w).
Proof.
  intros Hoff Hview. unfold offered in Hoff. rewrite Hview in Hoff.
  apply andb_true_iff in Hoff. destruct Hoff as [_ Hoff].
  destruct w as [[] st ef].
  destruct e; cbn [isDashboard negb andb] in Hoff; try discriminate Hoff;
    unfold onEvent; run_steps; split; reflexivity.
Qed.

(* ------------------------------------------------------------------ *)
(** *** What holds whenever the component is at rest *)

Lemma onEvent_rest (e : UiEvent) (w : World) :
  store (snd (onEvent e w)) = store w /\
  effects (snd (onEvent e w)) = effects w /\
  transactions (state (snd (onEvent e w))) = transactions (state w) /\
  summary (state (snd (onEvent e w))) = summary (state w) /\
  loading (state (snd (onEvent e w))) = loading (state w).
Proof.
  destruct w as [[] st ef].
  destruct e; unfold onEvent; run_steps; repeat split.
Qed.

Lemma Forall_requestFor_app (userId : jsstring) (l l' : list Effect) :
  Forall (requestFor userId) l -> Forall (requestFor userId) l' ->
  Forall (requestFor userId) (l ++ l').
Proof. intros H H'. apply Forall_app. now split. Qed.

Lemma afterLoad_rest (userId : jsstring) (response : Settled ResponseData)
    (w : World) :
  Forall (requestFor userId) (effects w) ->
  loading (state (afterLoad userId response w)) = false /\
  (summary (state (afterLoad userId response w)) = None ->
   stored (afterLoad userId response w) = []) /\
  Forall (requestFor userId) (effects (afterLoad userId response w)).
Proof.
  intros Hef. destruct w as [[] st ef]. cbn [effects] in Hef.
  unfold afterLoad, stored, loadData, loadData_request, loadData_settled,
    fetchTransactions.
  destruct response as [data|reason]; run_steps; rewrite deref_new;
    (split; [reflexivity|]); (split; [intros H; try discriminate H; reflexivity|]);
    rewrite <- ?app_assoc; apply Forall_requestFor_app; auto;
    repeat constructor.
Qed.

Lemma afterRemove_rest (userId transactionId : jsstring) (isConfirmed : bool)
    (deleted : Settled unit) (reloaded : Settled ResponseData) (w : World) :
  wellFormed w -> loading (state w) = false ->
  (summary (state w) = None -> stored w = []) ->
  Forall (requestFor userId) (effects w) ->
  let w' := afterRemove userId transactionId isConfirmed deleted reloaded w in
  wellFormed w' /\ loading (state w') = false /\
  (summary (state w') = None -> stored w' = []) /\
  Forall (requestFor userId) (effects w').
Proof.
  cbv zeta. destruct w as [[] st ef].
  unfold wellFormed, stored. cbn [state store effects transactions summary loading].
  intros Hwf Hl Hsum Hef.
  unfold afterRemove, handleRemoveTransaction, deleteTransaction,
    loadData_request, loadData_settled, fetchTransactions.
  destruct isConfirmed; [destruct deleted as [v|reason];
                         [destruct reloaded as [data|reason]|]|];
    run_steps; rewrite ?deref_new, ?length_app; cbn [List.length];
    (split; [lia|]); (split; [auto|]);
    (split; [intros H; try discriminate H; auto|]);
    rewrite <- ?app_assoc; apply Forall_requestFor_app; auto;
    repeat constructor; cbn [requestFor]; eauto.
Qed.

(** X14: whenever the mounted component is at rest, the reference of the
    state points into the store and the loading flag is false; if there is
    no summary then the list is empty, so transactions are never shown
    without their summary cards; and every request sent so far went to the
    transactions of the resolved user identifier. *)
Theorem reachable_invariant (params : URLSearchParams) (w : World) :
  Reachable params w ->
  wellFormed w /\
  loading (state w) = false /\
  (summary (state w) = None -> stored w = []) /\
  Forall (requestFor (getUserIdFromUrl params)) (effects w).
Proof.
  induction 1 as [response | w w' Hreach IH Hstep].
  - unfold mount.
    fold (afterLoad (getUserIdFromUrl params) response initialWorld).
    split; [apply afterLoad_wellFormed|].
    apply afterLoad_rest. constructor.
  - destruct IH as (Hwf & Hl & Hsum & Hef).
    destruct Hstep as [w e Hoff | w | w t isConfirmed deleted reloaded _ _].
    + pose proof (onEvent_rest e w) as (Hst & He & Htr & Hs & Hlo).
      assert (Hstored : stored (snd (onEvent e w)) = stored w)
        by (unfold stored; now rewrite Hst, Htr).
      repeat split.
      * unfold wellFormed in *. now rewrite Hst, Htr.
      * now rewrite Hlo.
      * rewrite Hs, Hstored. exact Hsum.
      * now rewrite He.
    + pose proof (render_world (getUserIdFromUrl params) Hwf)
        as (Hs & He & Hwf' & Hperm).
      repeat split; auto.
      * now rewrite Hs.
      * rewrite Hs. intros Hnone. specialize (Hsum Hnone).
        rewrite Hsum in Hperm. now apply Permutation_nil, Permutation_sym.
      * now rewrite He.
    + now apply afterRemove_rest.
Qed.

(* ------------------------------------------------------------------ *)
(** *** The charts *)

Lemma COLORS_NoDup : NoDup COLORS.
Proof.
  unfold COLORS.
  repeat (constructor; [cbn [In]; intros H;
                        repeat (destruct H as [H|H]; [vm_compute in H; discriminate H|]);
                        exact H|]).
  constructor.
Qed.

(** X15: every cell of the pie gets a colour of the palette, never
    [undefined]; two cells get the same colour exactly when their indices
    differ by a multiple of six, so with more than six categories colours
    repeat. *)
Theorem cellFills_palette (data : list ChartEntry) (i j : nat) :
  (i < List.length data)%nat -> (j < List.length data)%nat ->
  (exists colour : jsstring,
     nth_error (cellFills data) i = Some (Some colour) /\ In colour COLORS) /\
  (nth_error (cellFills data) i = nth_error (cellFills data) j <->
   (i mod 6 = j mod 6)%nat).
Proof.
  intros Hi Hj.
  assert (Hcell : forall k, (k < List.length data)%nat ->
            nth_error (cellFills data) k = Some (nth_error COLORS (k mod 6)%nat)).
  { intros k Hk. unfold cellFills.
    rewrite nth_error_map, nth_error_seq.
    apply Nat.ltb_lt in Hk. now rewrite Hk. }
  assert (Hlen : List.length COLORS = 6%nat) by reflexivity.
  assert (Hmod : forall k : nat, (k mod 6 < List.length COLORS)%nat).
  { intros k. rewrite Hlen. apply Nat.mod_upper_bound. discriminate. }
  rewrite !Hcell by assumption. split.
  - destruct (nth_error COLORS (i mod 6)%nat) as [colour|] eqn:E.
    + exists colour. split; [reflexivity|]. eapply nth_error_In; eauto.
    + apply nth_error_None in E. specialize (Hmod i). lia.
  - split.
    + intros H. injection H as H.
      apply (proj1 (NoDup_nth_error COLORS) COLORS_NoDup); auto.
    + now intros ->.
Qed.

(* ------------------------------------------------------------------ *)
(** *** The requests *)

(** X17: the user identifier and the transaction identifier go into the URL
    as they are: the delete of transaction [x/t] of user [u] and the delete
    of transaction [t] of user [u/x] send the same request, and loading the
    transactions of user [u/t] requests the URL at which transaction [t] of
    user [u] is deleted. *)
Theorem request_urls_not_escaped (u x t : jsstring) (w : World) :
  snd (deleteTransaction (u ++ js "/" ++ x) t w)
    = snd (deleteTransaction u (x ++ js "/" ++ t) w) /\
  exists url : jsstring,
    effects (snd (fetchTransactions (u ++ js "/" ++ t) w))
      = effects w ++ [axios_get url] /\
    effects (snd (deleteTransaction u t w)) = effects w ++ [axios_delete url].
Proof.
  unfold deleteTransaction, fetchTransactions, emit. cbn [snd effects]. split.
  - now rewrite <- !app_assoc.
  - eexists. split; reflexivity.
Qed.

End MoreProperties.

(** X16: in the demonstration variant a confirmed delete sends no request
    and deletes nothing: whatever the identifier, the list afterwards holds
    the transactions 1 and 2 made anew, and the alert of success is raised
    all the same. *)
Theorem demo_delete_deletes_nothing (transactionId now1 now2 : jsstring)
    (w : World) :
  let w' := snd (Demo.handleRemoveTransaction transactionId true now1 now2 w) in
  effects w' =
    effects w ++
      [window_confirm (js "Tem certeza que deseja apagar esta transação?");
       window_alert (js "Transação excluída com sucesso!")] /\
  stored w' = Demo.mockTransactions now1 now2 /\
  map _id (stored w') = [js "1"; js "2"] /\
  summary (state w') = Some Demo.mockSummary /\
  loading (state w') = false.
Proof.
  cbv zeta. destruct w as [[] st ef].
  unfold Demo.handleRemoveTransaction, Demo.loadData, stored.
  lazy beta iota zeta delta
    [setTransactions setSummary setLoading setState emit Array_new bind ret
     fst snd state store effects transactions summary loading].
  rewrite deref_new, <- app_assoc. repeat split.
Qed.


(* ================================================================== *)
(** ** The properties at concrete inputs *)

(** C1: on the dashboard with no search term and no category no filter
    makes a new array, so [sort] works on the array of the state itself: the
    stored list, which was Mercado and then Salário, is Salário and then
    Mercado after the call. *)
Theorem getFilteredTransactions_sorts_stored_list :
  stored (worldOf [mercado; salario] view_dashboard "" "")
    = [mercado; salario] /\
  stored (@afterDerive demoHost (worldOf [mercado; salario] view_dashboard "" ""))
    = [salario; mercado] /\
  ~ @leavesStoredList demoHost (worldOf [mercado; salario] view_dashboard "" "").
Proof.
  split; [reflexivity|]. split; [vm_compute; reflexivity|].
  unfold leavesStoredList. vm_compute. intros H. discriminate H.
Qed.

(** With a search term the same call works on the array of the filter and
    the stored list stays. *)
Example getFilteredTransactions_keeps_stored_list_when_filtering :
  let w := worldOf [mercado; salario] view_transactions "a" "" in
  @derived demoHost w = [salario; mercado] /\
  stored (@afterDerive demoHost w) = [mercado; salario].
Proof. cbv zeta. split; vm_compute; reflexivity. Qed.

Lemma search_filter_case_insensitive_witness :
  Kept (@searchHit demoHost (js "MERC")) [mercado; salario]
    (@bySearch demoHost (js "MERC") [mercado; salario]) /\
  @bySearch demoHost (js "merc") [mercado] = [mercado].
Proof.
  destruct (@search_filter_case_insensitive demoHost
              (worldOf [mercado; salario] view_transactions "MERC" ""))
    as (_ & Hkept & _ & Hmerc).
  split.
  - apply Hkept. discriminate.
  - apply Hmerc; reflexivity.
Defined.

Example search_term_upper_case :
  @derived demoHost
    (worldOf [mercado; salario] view_transactions "MERC" "") = [mercado].
Proof. vm_compute. reflexivity. Qed.

(** C4, as stated, fails: between a transaction of 1 March and one of
    5 March stands one whose date is no date; every comparison with it is
    [NaN], the array stays as it is, and the older transaction stands before
    the newer. *)
Lemma invalid_date_breaks_newest_first :
  ~ @newestFirstOrder demoHost
      (@derived demoHost
         (worldOf [mercado; undated; salario] view_transactions "" "")).
Proof.
  intros H.
  assert (C : (2 < 0)%nat); [|lia].
  apply (H 2%nat 0%nat salario mercado 1709631000000 1709287200000);
    vm_compute; reflexivity.
Qed.

(** With invalid dates the tie-break is not stable either.  The stored list
    has the taxi before the Uber of the same time; V8 takes the first five
    transactions for one run, since every comparison with an invalid date
    is [NaN], and its binary search then places the Uber before the
    transaction of 1 March, and so before the taxi. *)
Example invalid_date_reorders_equal_times :
  filter (@hasTime demoHost 1712044800000)
    [undated; nodate "5"; mercado; nodate "6"; taxi; uber "05"; uber "02"]
  = [taxi; uber "02"] /\
  @derived demoHost
    (worldOf [undated; nodate "5"; mercado; nodate "6"; taxi; uber "05"; uber "02"]
       view_transactions "" "")
  = [undated; nodate "5"; uber "05"; uber "02"; mercado; nodate "6"; taxi].
Proof. split; vm_compute; reflexivity. Qed.

Lemma derived_newest_first_stable_witness :
  stored twoAtOneTime = [mercado; taxi; salario; uber "02"] /\
  Forall (@validDate demoHost) (@derived demoHost twoAtOneTime) /\
  @derived demoHost twoAtOneTime = [taxi; uber "02"; salario; mercado] /\
  @newestFirstOrder demoHost (@derived demoHost twoAtOneTime) /\
  filter (@hasTime demoHost 1712044800000) (@derived demoHost twoAtOneTime)
  = [taxi; uber "02"].
Proof.
  assert (Hd : @derived demoHost twoAtOneTime = [taxi; uber "02"; salario; mercado])
    by (vm_compute; reflexivity).
  assert (Hvalid : Forall (@validDate demoHost) (@derived demoHost twoAtOneTime)).
  { rewrite Hd.
    repeat apply Forall_cons; try apply Forall_nil;
      unfold validDate, timeOf; vm_compute; intros H; discriminate H. }
  split; [reflexivity|]. split; [exact Hvalid|]. split; [exact Hd|].
  destruct (@derived_newest_first_stable demoHost twoAtOneTime Hvalid)
    as [Horder Hstable].
  split; [exact Horder|].
  rewrite (Hstable 1712044800000). vm_compute. reflexivity.
Defined.

Example dashboard_eight_shows_five :
  let w := worldOf [uber "01"; uber "02"; uber "03"; uber "04"; uber "05";
                    uber "06"; uber "07"; uber "08"] view_dashboard "" "" in
  List.length (@derived demoHost w) = 8%nat /\
  rows (fst (@renderTransactionsList demoHost w))
  = [uber "08"; uber "07"; uber "06"; uber "05"; uber "04"].
Proof. cbv zeta. split; vm_compute; reflexivity. Qed.

(** C7, as stated, fails in its last part: after a delete that succeeded
    and a reload that was rejected the list is empty, so it has changed
    without a refetch that succeeded. *)
Lemma failed_refetch_clears_list :
  ~ @changesOnlyAfterRefetch demoHost (js "user1") (js "1") true
      (fulfilled tt) (rejected (js "Network Error"))
      (worldOf [mercado; salario] view_transactions "" "").
Proof.
  intros H. destruct H as [data Hdata].
  - vm_compute. intros C. discriminate C.
  - discriminate Hdata.
Qed.

(** C9, as stated, fails: for the URL [?userId=] the parameter is there,
    with the empty value, and the resolved identifier is the placeholder. *)
Lemma empty_userId_parameter_not_resolved :
  URLSearchParams_get [(js "userId", [])] (js "userId") = Some [] /\
  ~ resolvesToParameter [(js "userId", [])].
Proof.
  split; [vm_compute; reflexivity|].
  unfold resolvesToParameter. vm_compute. intros H. discriminate H.
Qed.

Lemma dashboard_rows_are_filtered_witness :
  currentView (state filteredThenDashboard) = view_dashboard /\
  searchTerm (state filteredThenDashboard) = js "an" /\
  selectedCategory (state filteredThenDashboard) = js "Alimentação" /\
  stored filteredThenDashboard = [mercado; salario; lanche; uber "01"] /\
  fst (@renderFilters demoHost filteredThenDashboard) = None /\
  Kept (fun t =>
          (js "an" = [] \/ @searchHit demoHost (js "an") t) /\
          (js "Alimentação" = [] \/ category t = js "Alimentação"))
    [mercado; salario; lanche; uber "01"] [lanche] /\
  rows (fst (@renderTransactionsList demoHost filteredThenDashboard)) = [lanche].
Proof.
  split; [reflexivity|]. split; [reflexivity|]. split; [reflexivity|].
  split; [reflexivity|].
  destruct (@dashboard_rows_are_filtered demoHost filteredThenDashboard eq_refl)
    as (Hnone & Hkept & Hrows & _).
  split; [exact Hnone|]. split.
  - assert (Hf : @byCategory (js "Alimentação")
                   (@bySearch demoHost (js "an")
                      [mercado; salario; lanche; uber "01"]) = [lanche])
      by (vm_compute; reflexivity).
    rewrite <- Hf. exact Hkept.
  - rewrite Hrows. vm_compute. reflexivity.
Defined.

(* ------------------------------------------------------------------ *)
(** *** The further properties at concrete inputs *)


(** Without that condition the second call may return another list: the
    standard leaves the order of an array that is compared inconsistently
    to the engine, and on an engine that reverses such an array the second
    call undoes what the first did. *)
Example second_call_may_differ :
  @derived reversingHost
    (worldOf [mercado; undated; salario] view_dashboard "" "")
  = [salario; undated; mercado] /\
  @derived reversingHost
    (@afterDerive reversingHost
       (worldOf [mercado; undated; salario] view_dashboard "" ""))
  = [mercado; undated; salario].
Proof. split; vm_compute; reflexivity. Qed.

Lemma getFilteredTransactions_frame_witness :
  wellFormed (worldOf [mercado; salario] view_expenses "" "") /\
  stored (@afterDerive demoHost (worldOf [mercado; salario] view_expenses "" ""))
  = [mercado; salario].
Proof.
  assert (Hwf : wellFormed (worldOf [mercado; salario] view_expenses "" ""))
    by (unfold wellFormed; cbn; lia).
  split; [exact Hwf|].
  destruct (@getFilteredTransactions_frame demoHost _ Hwf)
    as (_ & _ & _ & Hsame & _).
  rewrite Hsame; reflexivity.
Defined.

Lemma category_selection_and_options_witness :
  @derived demoHost (worldOf [mercado; salario] view_transactions "" "Lazer") = [] /\
  exists t,
    In t (@derived demoHost
            (worldOf [mercado; salario] view_transactions "" "Trabalho")) /\
    category t = js "Trabalho".
Proof.
  split.
  - destruct (@category_selection_and_options demoHost
                (worldOf [mercado; salario] view_transactions "" "Lazer"))
      as [Hnone _].
    apply Hnone.
    + discriminate.
    + vm_compute. intros [H|[H|[]]]; discriminate H.
  - destruct (@category_selection_and_options demoHost
                (worldOf [mercado; salario] view_transactions "" "Trabalho"))
      as [_ Hsome].
    apply Hsome.
    + vm_compute. right. left. reflexivity.
    + reflexivity.
    + left. reflexivity.
Defined.

Lemma dashboard_offers_no_filter_control_witness :
  @offered demoHost typedThenDashboard click_menu = true /\
  currentView (state typedThenDashboard) = view_dashboard /\
  searchTerm (state (snd (onEvent click_menu typedThenDashboard))) = js "lanche".
Proof.
  assert (Hoff : @offered demoHost typedThenDashboard click_menu = true)
    by (vm_compute; reflexivity).
  split; [exact Hoff|]. split; [reflexivity|].
  destruct (@dashboard_offers_no_filter_control demoHost typedThenDashboard
              click_menu Hoff eq_refl) as [Hterm _].
  rewrite Hterm. reflexivity.
Defined.

Lemma reachable_invariant_witness :
  @Reachable demoHost [(js "userId", js "ana")] anaAtExpenses /\
  loading (state anaAtExpenses) = false /\
  Forall (@requestFor demoHost (getUserIdFromUrl [(js "userId", js "ana")]))
    (effects anaAtExpenses).
Proof.
  assert (Hreach : @Reachable demoHost [(js "userId", js "ana")] anaAtExpenses).
  { unfold anaAtExpenses. eapply Reachable_step.
    - apply (Reachable_mount (host := demoHost) [(js "userId", js "ana")]
               (fulfilled demoResponse)).
    - apply Step_event. vm_compute. reflexivity. }
  split; [exact Hreach|].
  destruct (@reachable_invariant demoHost _ _ Hreach) as (_ & Hl & _ & Hef).
  split; [exact Hl | exact Hef].
Defined.

Lemma cellFills_palette_witness :
  (0 < List.length eightEntries)%nat /\ (6 < List.length eightEntries)%nat /\
  nth_error (cellFills eightEntries) 0 = nth_error (cellFills eightEntries) 6.
Proof.
  assert (H0 : (0 < List.length eightEntries)%nat) by (cbn; lia).
  assert (H6 : (6 < List.length eightEntries)%nat) by (cbn; lia).
  split; [exact H0|]. split; [exact H6|].
  destruct (cellFills_palette eightEntries H0 H6) as [_ Hsame].
  apply Hsame. reflexivity.
Defined.

Lemma dashboard_rows_are_newest_witness :
  In (uber "08") (rows (fst (@renderTransactionsList demoHost eightUbers))) /\
  In (uber "02") (skipn 5 (@derived demoHost eightUbers)) /\
  1712044800000 <= 1712563200000.
Proof.
  assert (Hd : @derived demoHost eightUbers
               = [uber "08"; uber "07"; uber "06"; uber "05"; uber "04";
                  uber "03"; uber "02"; uber "01"])
    by (vm_compute; reflexivity).
  assert (Hshown : In (uber "08")
                     (rows (fst (@renderTransactionsList demoHost eightUbers))))
    by (vm_compute; left; reflexivity).
  assert (Hhidden : In (uber "02") (skipn 5 (@derived demoHost eightUbers)))
    by (rewrite Hd; cbn [skipn]; right; left; reflexivity).
  split; [exact Hshown|]. split; [exact Hhidden|].
  apply (@dashboard_rows_are_newest demoHost eightUbers (uber "08") (uber "02")
           1712563200000 1712044800000).
  - rewrite Hd. repeat apply Forall_cons; try apply Forall_nil;
      unfold validDate, timeOf; vm_compute; intros H; discriminate H.
  - reflexivity.
  - exact Hshown.
  - exact Hhidden.
  - vm_compute. reflexivity.
  - vm_compute. reflexivity.
Defined.

Lemma getCategories_ignores_order_witness :
  Permutation
    (stored (@afterDerive demoHost (worldOf [mercado; salario] view_dashboard "" "")))
    (stored (worldOf [mercado; salario] view_dashboard "" "")) /\
  fst (@getCategories demoHost
         (@afterDerive demoHost (worldOf [mercado; salario] view_dashboard "" "")))
  = fst (@getCategories demoHost
           (worldOf [mercado; salario] view_dashboard "" "")).
Proof.
  assert (Hperm : Permutation
            (stored (@afterDerive demoHost
                       (worldOf [mercado; salario] view_dashboard "" "")))
            (stored (worldOf [mercado; salario] view_dashboard "" ""))).
  { assert (Hs : stored (@afterDerive demoHost
                           (worldOf [mercado; salario] view_dashboard "" ""))
                 = [salario; mercado]) by (vm_compute; reflexivity).
    rewrite Hs. apply perm_swap. }
  split; [exact Hperm|].
  apply (@getCategories_ignores_order demoHost _ _ Hperm).
Defined.
